(** * text2markdown-convertor: the conversion controller of [src/App.jsx]

    A shallow embedding of the single React component of the repository:
    the six pieces of UI state, the [convertToMarkdown] handler with its
    try / catch / finally around the outbound call, the fence-stripping
    [text.replace(/^```markdown\s*|\s*```$/g, '')], the "Clear All" and
    preview-toggle handlers and [copyToClipboard].

    JavaScript strings are sequences of UTF-16 code units; the regular
    expression is kept as a syntax tree and run by a backtracking matcher
    written after the ECMAScript pattern semantics (continuation passing,
    greedy repetition, leftmost search, global replace). *)

From Stdlib Require Import String Ascii.
From Stdlib Require Import List Arith Lia Bool NArith ZArith.
From Stdlib Require Import Floats.SpecFloat.
Import ListNotations.

Set Implicit Arguments.
Set Warnings "-register-all".
Open Scope list_scope.

(* ===================================================================== *)
(** ** JavaScript strings *)
(* ===================================================================== *)

(** A UTF-16 code unit. *)
Definition code_unit := N.

Definition jsstring := list code_unit.

(** An ASCII literal as a JavaScript string. *)
Fixpoint lit (s : string) : jsstring :=
  match s with
  | EmptyString => []
  | String a s' => N_of_ascii a :: lit s'
  end.

Definition code_unit_eqb (a b : code_unit) : bool := N.eqb a b.

Fixpoint jsstring_eqb (a b : jsstring) : bool :=
  match a, b with
  | [], [] => true
  | x :: a', y :: b' => code_unit_eqb x y && jsstring_eqb a' b'
  | _, _ => false
  end.

(** The class [\s]: WhiteSpace and LineTerminator code points. *)
Definition is_space (c : code_unit) : bool :=
  ((9 <=? c) && (c <=? 13)           (* TAB LF VT FF CR *)
   || (c =? 32)                      (* SPACE *)
   || (c =? 160)                     (* NO-BREAK SPACE *)
   || (c =? 5760)                    (* U+1680 *)
   || ((8192 <=? c) && (c <=? 8202)) (* U+2000 .. U+200A *)
   || (c =? 8232) || (c =? 8233)     (* U+2028 U+2029 *)
   || (c =? 8239)                    (* U+202F *)
   || (c =? 8287)                    (* U+205F *)
   || (c =? 12288)                   (* U+3000 *)
   || (c =? 65279))%N.               (* U+FEFF *)

(** [s.substring(from, to)] for [from <= to]. *)
Definition substring (s : jsstring) (from to : nat) : jsstring :=
  firstn (to - from) (skipn from s).

(** A JavaScript string is truthy when it is not empty. *)
Definition string_truthy (s : jsstring) : bool :=
  match s with [] => false | _ :: _ => true end.

(* ===================================================================== *)
(** ** Regular expressions: syntax and backtracking matcher *)
(* ===================================================================== *)

(** The pattern constructs that occur in the source. *)
Inductive regex : Type :=
| Empty
| Char (ch : code_unit)
| Space                      (* \s *)
| AssertStart                (* ^  (no multiline flag) *)
| AssertEnd                  (* $  (no multiline flag) *)
| Seq (r1 r2 : regex)
| Alt (r1 r2 : regex)        (* r1|r2, r1 tried first *)
| Star (r : regex).          (* r*, greedy *)

(** The literal characters of a string, in sequence. *)
Fixpoint Str (s : jsstring) : regex :=
  match s with
  | [] => Empty
  | ch :: s' => Seq (Char ch) (Str s')
  end.

(** A continuation takes the end index reached so far and returns the end
    index of the whole match, or fails. *)
Definition Continuation := nat -> option nat.

(** Greedy repetition with minimum 0 and no maximum: try one more
    iteration (an iteration that consumes nothing is rejected), and fall
    back to the continuation at the current index.  Every accepted
    iteration moves the index forward, so [S (length input)] steps of
    [fuel] are never used up. *)
Fixpoint RepeatMatcher (m : nat -> Continuation -> option nat)
    (fuel : nat) (x : nat) (c : Continuation) : option nat :=
  match fuel with
  | 0 => None
  | S fuel' =>
      match m x (fun y => if y =? x then None else RepeatMatcher m fuel' y c) with
      | Some e => Some e
      | None => c x
      end
  end.

Fixpoint matcher (r : regex) (input : jsstring) (x : nat) (c : Continuation)
    {struct r} : option nat :=
  match r with
  | Empty => c x
  | Char ch =>
      match nth_error input x with
      | Some d => if code_unit_eqb d ch then c (S x) else None
      | None => None
      end
  | Space =>
      match nth_error input x with
      | Some d => if is_space d then c (S x) else None
      | None => None
      end
  | AssertStart => if x =? 0 then c x else None
  | AssertEnd => if x =? length input then c x else None
  | Seq r1 r2 => matcher r1 input x (fun y => matcher r2 input y c)
  | Alt r1 r2 =>
      match matcher r1 input x c with
      | Some e => Some e
      | None => matcher r2 input x c
      end
  | Star r' => RepeatMatcher (matcher r' input) (S (length input)) x c
  end.

(** The leftmost match at or after [lastIndex], trying [n] start indices. *)
Fixpoint search (r : regex) (input : jsstring) (n : nat) (lastIndex : nat)
    : option (nat * nat) :=
  match n with
  | 0 => None
  | S n' =>
      match matcher r input lastIndex Some with
      | Some e => Some (lastIndex, e)
      | None => search r input n' (S lastIndex)
      end
  end.

(** RegExpBuiltinExec of a global, non-sticky pattern: start indices
    [lastIndex .. length input]; nothing when [lastIndex] is past the end. *)
Definition RegExpBuiltinExec (r : regex) (input : jsstring) (lastIndex : nat)
    : option (nat * nat) :=
  search r input (S (length input) - lastIndex) lastIndex.

(** The successive matches of a global pattern; after an empty match the
    index advances by one code unit. *)
Fixpoint collect (r : regex) (input : jsstring) (fuel : nat) (lastIndex : nat)
    : list (nat * nat) :=
  match fuel with
  | 0 => []
  | S fuel' =>
      match RegExpBuiltinExec r input lastIndex with
      | None => []
      | Some (position, e) =>
          (position, e) :: collect r input fuel' (if e =? position then S e else e)
      end
  end.

(** The pieces of the input between the matches, each match replaced. *)
Fixpoint substitute (input : jsstring) (results : list (nat * nat))
    (replacement : jsstring) (nextSourcePosition : nat) : jsstring :=
  match results with
  | [] => skipn nextSourcePosition input
  | (position, e) :: results' =>
      if nextSourcePosition <=? position
      then substring input nextSourcePosition position ++ replacement
             ++ substitute input results' replacement e
      else substitute input results' replacement nextSourcePosition
  end.

(** [input.replace(/r/g, replacement)] for a replacement without [$]. *)
Definition replace (r : regex) (input : jsstring) (replacement : jsstring)
    : jsstring :=
  substitute input (collect r input (length input + 2) 0) replacement 0.

(** The two fence markers. *)
Definition fence_open : jsstring := lit "```markdown".
Definition fence_close : jsstring := lit "```".

(** [^```markdown\s*] *)
Definition open_alternative : regex :=
  Seq AssertStart (Seq (Str fence_open) (Star Space)).

(** [\s*```$] *)
Definition close_alternative : regex :=
  Seq (Star Space) (Seq (Str fence_close) AssertEnd).

(** [/^```markdown\s*|\s*```$/g] *)
Definition fence_pattern : regex :=
  Alt open_alternative close_alternative.

(** [const cleanedText = text.replace(/^```markdown\s*|\s*```$/g, '')] *)
Definition cleanedText (text : jsstring) : jsstring :=
  replace fence_pattern text [].

Definition NL : string := String (ascii_of_nat 10) EmptyString.

Local Notation "a +++ b" := (String.append a b)
  (at level 60, right associativity).

(* ===================================================================== *)
(** ** JavaScript values, property access and coercions *)
(* ===================================================================== *)

(** What [response.json()] can produce, and [undefined] for an absent
    property.  Numbers are IEEE doubles; an object is the list of its own
    properties. *)
Inductive value : Type :=
| VUndef
| VNull
| VBool (b : bool)
| VNum (f : spec_float)
| VStr (s : jsstring)
| VArr (items : list value)
| VObj (props : list (jsstring * value)).

(** The TypeErrors the handler can provoke. *)
Inductive type_error : Type :=
| ReadOfNullish (base : value) (key : jsstring)   (* undefined.key, null.key *)
| NotAFunction (base : value) (key : jsstring).   (* base.key(...) *)

(** An abrupt completion carries the [message] of the thrown error. *)
Inductive completion (A : Type) : Type :=
| Normal (a : A)
| Throw (message : jsstring).

Arguments Normal {A} a.
Arguments Throw {A} message.

Definition cbind {A B} (m : completion A) (k : A -> completion B)
    : completion B :=
  match m with
  | Normal a => k a
  | Throw msg => Throw msg
  end.

Fixpoint own_property (key : jsstring) (props : list (jsstring * value))
    : option value :=
  match props with
  | [] => None
  | (k, v) :: props' =>
      if jsstring_eqb k key then Some v else own_property key props'
  end.

Definition digit (c : code_unit) : option nat :=
  if ((48 <=? c) && (c <=? 57))%N then Some (N.to_nat (c - 48)) else None.

Fixpoint digits (acc : nat) (s : jsstring) : option nat :=
  match s with
  | [] => Some acc
  | c :: s' =>
      match digit c with
      | Some d => digits (10 * acc + d) s'
      | None => None
      end
  end.

(** A property key that is a canonical array index: ["0"], or decimal
    digits without a leading zero. *)
Definition array_index (key : jsstring) : option nat :=
  match key with
  | [] => None
  | c :: rest =>
      if (c =? 48)%N
      then match rest with [] => Some 0 | _ :: _ => None end
      else digits 0 key
  end.

Definition number_of_nat (n : nat) : spec_float :=
  match n with
  | 0 => S754_zero false
  | S _ => S754_finite false (Pos.of_nat n) 0%Z
  end.

Definition of_option (o : option value) : value :=
  match o with Some v => v | None => VUndef end.

(** ToBoolean. *)
Definition truthy (v : value) : bool :=
  match v with
  | VUndef | VNull => false
  | VBool b => b
  | VNum (S754_zero _) | VNum S754_nan => false
  | VNum _ => true
  | VStr s => string_truthy s
  | VArr _ | VObj _ => true
  end.

Section Engine.

(** The text an engine puts in the [message] of its TypeErrors. *)
Variable type_error_message : type_error -> jsstring.

(** ToNumber of a string, an array or an object (parsing of numeric
    literals, ToPrimitive).  ToPrimitive throws a TypeError on an object
    whose own [toString] and [valueOf] are not callable, and so on an
    array that holds one. *)
Variable coerce_number : value -> completion spec_float.

(** [v.key] and [v[key]] on parsed JSON. *)
Definition GetV (v : value) (key : jsstring) : completion value :=
  match v with
  | VUndef | VNull => Throw (type_error_message (ReadOfNullish v key))
  | VBool _ | VNum _ => Normal VUndef
  | VStr s =>
      if jsstring_eqb key (lit "length")
      then Normal (VNum (number_of_nat (length s)))
      else match array_index key with
           | Some i =>
               Normal (match nth_error s i with
                       | Some c => VStr [c]
                       | None => VUndef
                       end)
           | None => Normal VUndef
           end
  | VArr items =>
      if jsstring_eqb key (lit "length")
      then Normal (VNum (number_of_nat (length items)))
      else match array_index key with
           | Some i => Normal (of_option (nth_error items i))
           | None => Normal VUndef
           end
  | VObj props => Normal (of_option (own_property key props))
  end.

(** [v.k1.k2...] *)
Fixpoint GetPath (v : value) (keys : list jsstring) : completion value :=
  match keys with
  | [] => Normal v
  | key :: keys' => cbind (GetV v key) (fun v' => GetPath v' keys')
  end.

Definition ToNumber (v : value) : completion spec_float :=
  match v with
  | VUndef => Normal S754_nan
  | VNull => Normal (S754_zero false)
  | VBool true => Normal (S754_finite false 1%positive 0%Z)
  | VBool false => Normal (S754_zero false)
  | VNum f => Normal f
  | VStr _ | VArr _ | VObj _ => coerce_number v
  end.

(** A number is greater than zero. *)
Definition positive_number (f : spec_float) : bool :=
  match f with
  | S754_finite false _ _ | S754_infinity false => true
  | _ => false
  end.

(** [v > 0] *)
Definition greater_than_zero (v : value) : completion bool :=
  cbind (ToNumber v) (fun f => Normal (positive_number f)).

(** [a && b] used as a condition. *)
Definition js_and (a b : completion bool) : completion bool :=
  cbind a (fun x => if x then b else Normal false).

(** [text.replace(/^```markdown\s*|\s*```$/g, '')]: a method call, which
    needs [text] to be a string. *)
Definition call_replace (text : value) : completion jsstring :=
  match text with
  | VStr s => Normal (cleanedText s)
  | VUndef | VNull => Throw (type_error_message (ReadOfNullish text (lit "replace")))
  | _ => Throw (type_error_message (NotAFunction text (lit "replace")))
  end.

(* ===================================================================== *)
(** ** The component state and what the handlers do to the outside *)
(* ===================================================================== *)

(** The six [useState] cells. *)
Record state : Type := mkState {
  inputText : jsstring;
  markdownOutput : jsstring;
  isLoading : bool;
  error : jsstring;
  copyButtonText : jsstring;
  showPreview : bool
}.

Definition initial_state : state :=
  mkState [] [] false [] (lit "Copy Markdown") false.

Definition setInputText (v : jsstring) (st : state) : state :=
  mkState v (markdownOutput st) (isLoading st) (error st)
          (copyButtonText st) (showPreview st).
Definition setMarkdownOutput (v : jsstring) (st : state) : state :=
  mkState (inputText st) v (isLoading st) (error st)
          (copyButtonText st) (showPreview st).
Definition setIsLoading (v : bool) (st : state) : state :=
  mkState (inputText st) (markdownOutput st) v (error st)
          (copyButtonText st) (showPreview st).
Definition setError (v : jsstring) (st : state) : state :=
  mkState (inputText st) (markdownOutput st) (isLoading st) v
          (copyButtonText st) (showPreview st).
Definition setCopyButtonText (v : jsstring) (st : state) : state :=
  mkState (inputText st) (markdownOutput st) (isLoading st) (error st)
          v (showPreview st).
Definition setShowPreview (v : bool) (st : state) : state :=
  mkState (inputText st) (markdownOutput st) (isLoading st) (error st)
          (copyButtonText st) v.

(** What [console.error] is given besides its label. *)
Inductive logged : Type :=
| LoggedValue (v : value)
| LoggedError (message : jsstring).

Inductive timer_callback : Type :=
| ResetCopyButtonText.   (* () => setCopyButtonText("Copy Markdown") *)

(** Interactions with the network, the console, the document and timers. *)
Inductive effect : Type :=
| Fetch (url : jsstring) (payload : value)
| ConsoleLog (label : jsstring) (v : value)
| ConsoleError (label : jsstring) (detail : logged)
| CreateTextarea
| SetTextareaValue (v : jsstring)
| AppendChild
| SelectTextarea
| ExecCommandCopy
| RemoveChild
| SetTimeout (callback : timer_callback) (delay_ms : nat).

(** The state cells together with the interactions so far, oldest first. *)
Record world : Type := mkWorld {
  ui : state;
  trace : list effect
}.

(** A handler body: it changes the world and completes normally or
    abruptly. *)
Definition M (A : Type) : Type := world -> world * completion A.

Definition ret {A} (a : A) : M A := fun w => (w, Normal a).

Definition bind {A B} (m : M A) (k : A -> M B) : M B :=
  fun w =>
    match m w with
    | (w', Normal a) => k a w'
    | (w', Throw msg) => (w', Throw msg)
    end.

Definition lift {A} (c : completion A) : M A := fun w => (w, c).

Definition throw {A} (msg : jsstring) : M A := fun w => (w, Throw msg).

Definition set (f : state -> state) : M unit :=
  fun w => (mkWorld (f (ui w)) (trace w), Normal tt).

Definition emit (e : effect) : M unit :=
  fun w => (mkWorld (ui w) (trace w ++ [e]), Normal tt).

Definition read : M state := fun w => (w, Normal (ui w)).

(** [try { body } catch (err) { handler(err.message) }] *)
Definition try_catch {A} (body : M A) (handler : jsstring -> M A) : M A :=
  fun w =>
    match body w with
    | (w', Normal a) => (w', Normal a)
    | (w', Throw msg) => handler msg w'
    end.

(** [try { body } finally { cleanup }] *)
Definition try_finally {A} (body : M A) (cleanup : M unit) : M A :=
  fun w =>
    match body w with
    | (w', r) =>
        match cleanup w' with
        | (w'', Normal _) => (w'', r)
        | (w'', Throw msg) => (w'', Throw msg)
        end
    end.

Notation "x <- m ;; k" := (bind m (fun x => k))
  (at level 61, m at next level, right associativity).
Notation "m ;;; k" := (bind m (fun _ => k))
  (at level 61, right associativity).

(** Running a handler from a state, with an empty trace. *)
Definition run {A} (m : M A) (st : state) : world * completion A :=
  m (mkWorld st []).

Definition state_after {A} (m : M A) (st : state) : state :=
  ui (fst (run m st)).

Definition effects_of {A} (m : M A) (st : state) : list effect :=
  trace (fst (run m st)).

(* ===================================================================== *)
(** ** [convertToMarkdown] *)
(* ===================================================================== *)

(** [import.meta.env.VITE_GEMINI_API_KEY], present. *)
Variable apiKey : jsstring.

Definition quote : jsstring := [34%N].

(** The template literal of the prompt. *)
Definition prompt (input : jsstring) : jsstring :=
  lit ("Convert the following text into well-formatted Markdown syntax suitable for a README.md file."
       +++ NL +++ "      "
       +++ NL +++ "      Ensure the output includes appropriate headings, lists, code blocks, bold/italic text, and links where applicable."
       +++ NL +++ "      "
       +++ NL +++ "      Text to convert:"
       +++ NL +++ "      ")
  ++ quote ++ input ++ quote
  ++ lit (NL +++ "      "
          +++ NL +++ "      Please provide *only* the Markdown output.").

Definition chatHistory (input : jsstring) : value :=
  VArr [VObj [(lit "role", VStr (lit "user"));
              (lit "parts", VArr [VObj [(lit "text", VStr (prompt input))]])]].

Definition payload (input : jsstring) : value :=
  VObj [(lit "contents", chatHistory input);
        (lit "generationConfig",
         VObj [(lit "responseMimeType", VStr (lit "text/plain"))])].

Definition apiUrl : jsstring :=
  lit "https://generativelanguage.googleapis.com/v1beta/models/gemini-2.0-flash:generateContent?key="
  ++ apiKey.

(** How the two awaits of the handler end: [fetch] rejects, or
    [response.json()] rejects, or the body parses to [result]. *)
Inductive fetch_outcome : Type :=
| FetchRejected (message : jsstring)
| JsonRejected (message : jsstring)
| Parsed (result : value).

Definition failed_message : jsstring :=
  lit "Failed to generate Markdown. Please try again.".

Definition error_prefix : jsstring := lit "An error occurred: ".

Definition candidates_path : list jsstring := [lit "candidates"].
Definition content_path : list jsstring :=
  [lit "candidates"; lit "0"; lit "content"].
Definition parts_path : list jsstring := content_path ++ [lit "parts"].
Definition text_path : list jsstring := parts_path ++ [lit "0"; lit "text"].

(** The condition of the [if], conjunct by conjunct. *)
Definition has_content (result : value) : completion bool :=
  js_and (cbind (GetPath result candidates_path)
                (fun v => Normal (truthy v)))
  (js_and (cbind (GetPath result (candidates_path ++ [lit "length"]))
                 greater_than_zero)
  (js_and (cbind (GetPath result content_path)
                 (fun v => Normal (truthy v)))
  (js_and (cbind (GetPath result parts_path)
                 (fun v => Normal (truthy v)))
          (cbind (GetPath result (parts_path ++ [lit "length"]))
                 greater_than_zero)))).

(** The handler up to the call of [fetch]. *)
Definition convert_start : M unit :=
  set (setMarkdownOutput []) ;;;
  set (setError []) ;;;
  set (setCopyButtonText (lit "Copy Markdown")) ;;;
  set (setIsLoading true) ;;;
  set (setShowPreview false) ;;;
  st <- read ;;
  emit (Fetch apiUrl (payload (inputText st))).

(** The rest of the [try] block once the awaits have ended. *)
Definition convert_body (o : fetch_outcome) : M unit :=
  match o with
  | FetchRejected msg => throw msg
  | JsonRejected msg => throw msg
  | Parsed result =>
      ok <- lift (has_content result) ;;
      if ok then
        text <- lift (GetPath result text_path) ;;
        emit (ConsoleLog (lit "Generated Markdown:") text) ;;;
        cleaned <- lift (call_replace text) ;;
        set (setMarkdownOutput cleaned)
      else
        set (setError failed_message) ;;;
        emit (ConsoleError (lit "Unexpected API response structure:")
                           (LoggedValue result))
  end.

(** The handler from the end of the awaits on: the [try] block with its
    [catch] and [finally]. *)
Definition convert_resume (o : fetch_outcome) : M unit :=
  try_finally
    (try_catch (convert_body o)
       (fun msg =>
          set (setError (error_prefix ++ msg)) ;;;
          emit (ConsoleError (lit "Error during Markdown conversion:")
                             (LoggedError msg))))
    (set (setIsLoading false)).

(** One whole conversion attempt with nothing happening in between. *)
Definition convertToMarkdown (o : fetch_outcome) : M unit :=
  convert_start ;;; convert_resume o.

(* ===================================================================== *)
(** ** The other handlers *)
(* ===================================================================== *)

(** The [onClick] of "Clear All". *)
Definition clearAll : M unit :=
  set (setInputText []) ;;;
  set (setMarkdownOutput []) ;;;
  set (setError []) ;;;
  set (setCopyButtonText (lit "Copy Markdown")) ;;;
  set (setShowPreview false).

(** The [onClick] of the preview button: [setShowPreview(!showPreview)]. *)
Definition togglePreview : M unit :=
  st <- read ;;
  set (setShowPreview (negb (showPreview st))).

(** How [document.execCommand("copy")] ends. *)
Inductive exec_outcome : Type :=
| Returned (ok : bool)
| Threw (message : jsstring).

Definition execCommand (o : exec_outcome) : M bool :=
  emit ExecCommandCopy ;;;
  match o with
  | Returned ok => ret ok
  | Threw msg => throw msg
  end.

Definition copy_failed_message : jsstring :=
  lit "Failed to copy text to clipboard.".

Definition copyToClipboard (o : exec_outcome) : M unit :=
  st <- read ;;
  if string_truthy (markdownOutput st) then
    emit CreateTextarea ;;;
    emit (SetTextareaValue (markdownOutput st)) ;;;
    emit AppendChild ;;;
    emit SelectTextarea ;;;
    try_catch
      (execCommand o ;;;
       set (setCopyButtonText (lit "Copied!")) ;;;
       emit (SetTimeout ResetCopyButtonText 2000))
      (fun msg =>
         emit (ConsoleError (lit "Failed to copy text: ") (LoggedError msg)) ;;;
         set (setError copy_failed_message)) ;;;
    emit RemoveChild
  else ret tt.

(** A timer set by [copyToClipboard] fires. *)
Definition timer_fires (cb : timer_callback) : M unit :=
  match cb with
  | ResetCopyButtonText => set (setCopyButtonText (lit "Copy Markdown"))
  end.

End Engine.

(* ===================================================================== *)
(** ** What the fence pattern removes, on lists *)
(* ===================================================================== *)

Fixpoint starts_with (p s : jsstring) : bool :=
  match p, s with
  | [], _ => true
  | _ :: _, [] => false
  | a :: p', b :: s' => code_unit_eqb b a && starts_with p' s'
  end.

Definition ends_with (p s : jsstring) : bool :=
  starts_with (rev p) (rev s).

(** The string without its leading whitespace. *)
Fixpoint skip_spaces (s : jsstring) : jsstring :=
  match s with
  | [] => []
  | c :: s' => if is_space c then skip_spaces s' else s
  end.

(** The number of leading whitespace code units. *)
Fixpoint span (s : jsstring) : nat :=
  match s with
  | [] => 0
  | c :: s' => if is_space c then S (span s') else 0
  end.

Definition trim_start (s : jsstring) : jsstring := skip_spaces s.

Definition trim_end (s : jsstring) : jsstring := rev (skip_spaces (rev s)).

(** A leading [```markdown] with the whitespace after it, removed. *)
Definition drop_open (s : jsstring) : jsstring :=
  if starts_with fence_open s
  then skip_spaces (skipn (length fence_open) s)
  else s.

(** The whole of [t] is whitespace followed by the closing fence. *)
Definition tail_match (t : jsstring) : bool :=
  jsstring_eqb (skip_spaces t) fence_close.

(** The offset of the first suffix that is whitespace and closing fence. *)
Fixpoint find_close (u : jsstring) : option nat :=
  if tail_match u then Some 0
  else match u with
       | [] => None
       | _ :: u' => option_map S (find_close u')
       end.

(** A trailing [```] with the whitespace before it, removed. *)
Definition drop_close (u : jsstring) : jsstring :=
  match find_close u with
  | Some k => firstn k u
  | None => u
  end.

(** A fence marker somewhere in the string. *)
Fixpoint has_fence (s : jsstring) : bool :=
  starts_with fence_close s
  || match s with [] => false | _ :: s' => has_fence s' end.

(** What is removed in front: nothing, or the marker and whitespace. *)
Definition removed_open (pre : jsstring) : Prop :=
  pre = [] \/ exists w, forallb is_space w = true /\ pre = fence_open ++ w.

(** What is removed at the end: nothing, or whitespace and the fence. *)
Definition removed_close (suf : jsstring) : Prop :=
  suf = [] \/ exists w, forallb is_space w = true /\ suf = w ++ fence_close.

(* ===================================================================== *)
(** ** Shapes of the parsed response *)
(* ===================================================================== *)

(** [{ candidates: [ { content: { parts: [ { text } , ...] } }, ...] }] *)
Definition well_formed_response (result : value) (text : jsstring) : Prop :=
  exists props cand cands cont part parts',
    result = VObj props
    /\ own_property (lit "candidates") props = Some (VArr (VObj cand :: cands))
    /\ own_property (lit "content") cand = Some (VObj cont)
    /\ own_property (lit "parts") cont = Some (VArr (VObj part :: parts'))
    /\ own_property (lit "text") part = Some (VStr text).

(** The response with one candidate and one part. *)
Definition response_of_part (part : list (jsstring * value)) : value :=
  VObj [(lit "candidates",
         VArr [VObj [(lit "content",
                      VObj [(lit "parts", VArr [VObj part])])]])].

Definition response_of (text : jsstring) : value :=
  response_of_part [(lit "text", VStr text)].

(** A property that is not there, or is [null]. *)
Definition absent (o : option value) : Prop :=
  o = None \/ o = Some VNull.

(** An object that lacks the expected shape: no candidates, no candidate,
    a candidate without content, content without parts, or no part. *)
Inductive missing_shape : value -> Prop :=
| no_candidates props :
    absent (own_property (lit "candidates") props) ->
    missing_shape (VObj props)
| empty_candidates props :
    own_property (lit "candidates") props = Some (VArr []) ->
    missing_shape (VObj props)
| missing_content props cand cands :
    own_property (lit "candidates") props = Some (VArr (VObj cand :: cands)) ->
    absent (own_property (lit "content") cand) ->
    missing_shape (VObj props)
| missing_parts props cand cands cont :
    own_property (lit "candidates") props = Some (VArr (VObj cand :: cands)) ->
    own_property (lit "content") cand = Some (VObj cont) ->
    absent (own_property (lit "parts") cont) ->
    missing_shape (VObj props)
| empty_parts props cand cands cont :
    own_property (lit "candidates") props = Some (VArr (VObj cand :: cands)) ->
    own_property (lit "content") cand = Some (VObj cont) ->
    own_property (lit "parts") cont = Some (VArr []) ->
    missing_shape (VObj props).

(** Sample engine parameters for concrete runs: TypeError messages in the
    style of V8, and a ToNumber that gives NaN where it has to parse. *)
Definition sample_type_error_message (e : type_error) : jsstring :=
  match e with
  | ReadOfNullish VNull key =>
      lit "Cannot read properties of null (reading '" ++ key ++ lit "')"
  | ReadOfNullish _ key =>
      lit "Cannot read properties of undefined (reading '" ++ key ++ lit "')"
  | NotAFunction _ key => lit "text." ++ key ++ lit " is not a function"
  end.

Definition sample_coerce_number (v : value) : completion spec_float :=
  Normal S754_nan.

Definition sample_apiKey : jsstring := lit "sample-key".

(** A state in the middle of a session, for concrete runs. *)
Definition sample_state : state :=
  mkState (lit "Title") (lit "# Title") false (lit "old error")
          (lit "Copied!") true.

(* ===================================================================== *)
(** ** The rendered page and the events it lets through *)
(* ===================================================================== *)

(** [s.trim()]: whitespace and line terminators off both ends. *)
Definition js_trim (s : jsstring) : jsstring := trim_end (trim_start s).

(** What the output panel shows below its label. *)
Inductive output_body : Type :=
| Preview (html : jsstring)     (* dangerouslySetInnerHTML *)
| Raw (text : jsstring).        (* the read-only textarea *)

(** The panel rendered under [markdownOutput && (...)]. *)
Record output_panel : Type := mkOutputPanel {
  toggleLabel : jsstring;
  outputBody : output_body;
  copyLabel : jsstring
}.

(** The parts of the returned JSX that depend on the state. *)
Record view : Type := mkView {
  textareaValue : jsstring;
  convertDisabled : bool;
  convertLabel : jsstring;
  clearDisabled : bool;
  errorPanel : option jsstring;
  outputPanel : option output_panel
}.

(** What can happen to the mounted component. *)
Inductive event : Type :=
| Change (v : jsstring)           (* onChange of the input textarea *)
| ClickConvert
| ClickClear
| ClickToggle
| ClickCopy (o : exec_outcome)
| TimerFires (cb : timer_callback)
| Response (o : fetch_outcome).   (* the awaits of a conversion end *)

Definition is_response (e : event) : bool :=
  match e with Response _ => true | _ => false end.

Definition is_click (e : event) : bool :=
  match e with
  | ClickConvert | ClickClear | ClickToggle | ClickCopy _ => true
  | _ => false
  end.

(** A disabled button gives no click, and the buttons of the output panel
    exist only while the panel is rendered. *)
Definition enabled (v : view) (e : event) : bool :=
  match e with
  | Change _ => true
  | ClickConvert => negb (convertDisabled v)
  | ClickClear => negb (clearDisabled v)
  | ClickToggle | ClickCopy _ =>
      match outputPanel v with Some _ => true | None => false end
  | TimerFires _ | Response _ => true
  end.

Definition is_request (e : effect) : bool :=
  match e with Fetch _ _ => true | _ => false end.

Definition is_console (e : effect) : bool :=
  match e with ConsoleLog _ _ | ConsoleError _ _ => true | _ => false end.

(** A conversion is in flight and nothing else has been touched. *)
Definition in_flight (st : state) : Prop :=
  isLoading st = true
  /\ markdownOutput st = []
  /\ error st = []
  /\ copyButtonText st = lit "Copy Markdown"
  /\ showPreview st = false.

Section Page.

Variable type_error_message : type_error -> jsstring.
Variable coerce_number : value -> completion spec_float.
Variable apiKey : jsstring.

(** [marked.parse] *)
Variable marked_parse : jsstring -> jsstring.

Definition renderMarkdown (st : state) : jsstring :=
  if string_truthy (markdownOutput st)
  then marked_parse (markdownOutput st)
  else [].

(** The JSX of the component, for a state. *)
Definition render (st : state) : view :=
  mkView
    (inputText st)
    (isLoading st || negb (string_truthy (js_trim (inputText st))))
    (if isLoading st then lit "Converting..." else lit "Convert to Markdown")
    (isLoading st)
    (if string_truthy (error st) then Some (error st) else None)
    (if string_truthy (markdownOutput st)
     then Some (mkOutputPanel
                  (if showPreview st
                   then lit "Show Markdown Syntax"
                   else lit "Show Preview")
                  (if showPreview st
                   then Preview (renderMarkdown st)
                   else Raw (markdownOutput st))
                  (copyButtonText st))
     else None).

(** The handler behind each event. *)
Definition handler (e : event) : M unit :=
  match e with
  | Change v => set (setInputText v)
  | ClickConvert => convert_start apiKey
  | ClickClear => clearAll
  | ClickToggle => togglePreview
  | ClickCopy o => copyToClipboard o
  | TimerFires cb => timer_fires cb
  | Response o => convert_resume type_error_message coerce_number o
  end.

(** An event goes through when the page rendered from the current state
    lets it. *)
Definition dispatch (e : event) (w : world) : option world :=
  if enabled (render (ui w)) e then Some (fst (handler e w)) else None.

Fixpoint dispatch_all (es : list event) (w : world) : option world :=
  match es with
  | [] => Some w
  | e :: es' =>
      match dispatch e w with
      | Some w' => dispatch_all es' w'
      | None => None
      end
  end.

End Page.

(** The shape up to the first part, whatever the part holds. *)
Definition response_with_part (result : value)
    (part : list (jsstring * value)) : Prop :=
  exists props cand cands cont parts',
    result = VObj props
    /\ own_property (lit "candidates") props = Some (VArr (VObj cand :: cands))
    /\ own_property (lit "content") cand = Some (VObj cont)
    /\ own_property (lit "parts") cont = Some (VArr (VObj part :: parts')).

(** A parsed body that is not an object and not [null]. *)
Definition not_an_object (result : value) : bool :=
  match result with
  | VBool _ | VNum _ | VStr _ | VArr _ => true
  | VUndef | VNull | VObj _ => false
  end.

(** The TypeError of [text.replace(...)] for a [text] that is no string. *)
Definition replace_type_error (text : value) : type_error :=
  match text with
  | VUndef | VNull => ReadOfNullish text (lit "replace")
  | _ => NotAFunction text (lit "replace")
  end.

(** A response with a second candidate and further properties. *)
Definition sample_crowded_response (text : jsstring) : value :=
  VObj [(lit "usageMetadata", VObj []);
        (lit "candidates",
         VArr [VObj [(lit "finishReason", VStr (lit "STOP"));
                     (lit "content",
                      VObj [(lit "role", VStr (lit "model"));
                            (lit "parts",
                             VArr [VObj [(lit "text", VStr text)];
                                   VObj [(lit "text", VStr (lit "more"))]])])];
               VObj [(lit "content", VNull)]])].

(** The input text after the events [es], when it was [current] before:
    what the last [Change] among them carried. *)
Fixpoint typed (es : list event) (current : jsstring) : jsstring :=
  match es with
  | [] => current
  | Change v :: es' => typed es' v
  | _ :: es' => typed es' current
  end.

(** [{ candidates: [] }] and [{ candidates: [null] }] *)
Definition empty_candidates_response : value :=
  VObj [(lit "candidates", VArr [])].

Definition null_candidate_response : value :=
  VObj [(lit "candidates", VArr [VNull])].

(** A state with a result on the page and nothing else going on. *)
Definition sample_result_state : state :=
  mkState (lit "Title") (lit "# Title") false [] (lit "Copy Markdown") false.

Definition sample_marked_parse (s : jsstring) : jsstring :=
  lit "<p>" ++ s ++ lit "</p>".

(** The continuations tried by a greedy [\s*] that can consume [n] code
    units from [x]: longest first. *)
Fixpoint backtrack (c : Continuation) (x n : nat) : option nat :=
  match c (x + n) with
  | Some e => Some e
  | None => match n with 0 => None | S n' => backtrack c x n' end
  end.

(* ===================================================================== *)
(** ** The matcher on the fence pattern *)
(* ===================================================================== *)

Lemma skipn_nth_some (A : Type) (s : list A) (x : nat) (d : A) :
  nth_error s x = Some d -> skipn x s = d :: skipn (S x) s.
Proof.
  revert x; induction s as [|a s IH]; intros [|x] H; simpl in *;
    try discriminate.
  - now inversion H.
  - now apply IH.
Qed.

Lemma skipn_nth_none (A : Type) (s : list A) (x : nat) :
  nth_error s x = None -> skipn x s = [].
Proof.
  intros H. apply skipn_all2. now apply nth_error_None.
Qed.

Lemma code_unit_eqb_eq (a b : code_unit) : code_unit_eqb a b = true <-> a = b.
Proof. apply N.eqb_eq. Qed.

Lemma jsstring_eqb_eq (a b : jsstring) : jsstring_eqb a b = true <-> a = b.
Proof.
  revert b; induction a as [|x a IH]; intros [|y b]; simpl; split;
    try congruence; try discriminate.
  - intros H. apply andb_true_iff in H as [H1 H2].
    apply code_unit_eqb_eq in H1. apply IH in H2. congruence.
  - intros H. inversion H; subst. apply andb_true_iff; split.
    + now apply code_unit_eqb_eq.
    + now apply IH.
Qed.

Lemma starts_with_app (p s : jsstring) : starts_with p (p ++ s) = true.
Proof.
  induction p as [|a p IH]; simpl; [reflexivity|].
  unfold code_unit_eqb. now rewrite N.eqb_refl.
Qed.

Lemma starts_with_split (p s : jsstring) :
  starts_with p s = true -> s = p ++ skipn (length p) s.
Proof.
  revert s; induction p as [|a p IH]; intros s H; simpl in *; [reflexivity|].
  destruct s as [|b s]; [discriminate|].
  apply andb_true_iff in H as [H1 H2]. apply code_unit_eqb_eq in H1. subst b.
  simpl. f_equal. now apply IH.
Qed.

(** A literal string matches when the input continues with it. *)
Lemma matcher_Str (p input : jsstring) (x : nat) (c : Continuation) :
  matcher (Str p) input x c =
  if starts_with p (skipn x input) then c (x + length p) else None.
Proof.
  revert x; induction p as [|ch p IH]; intros x; simpl.
  - now rewrite Nat.add_0_r.
  - destruct (nth_error input x) as [d|] eqn:E.
    + rewrite (skipn_nth_some _ _ E).
      destruct (code_unit_eqb d ch); simpl; [|reflexivity].
      rewrite IH. now rewrite Nat.add_succ_r.
    + now rewrite (skipn_nth_none _ _ E).
Qed.

Lemma backtrack_step (c : Continuation) (x n : nat) :
  backtrack c x (S n) =
  match backtrack c (S x) n with
  | Some e => Some e
  | None => c x
  end.
Proof.
  induction n as [|n IH].
  - simpl. rewrite Nat.add_0_r, Nat.add_1_r.
    destruct (c (S x)); [reflexivity|]. now destruct (c x).
  - change (backtrack c x (S (S n)))
      with (match c (x + S (S n)) with
            | Some e => Some e
            | None => backtrack c x (S n)
            end).
    rewrite IH.
    change (backtrack c (S x) (S n))
      with (match c (S x + S n) with
            | Some e => Some e
            | None => backtrack c (S x) n
            end).
    replace (x + S (S n)) with (S x + S n) by lia.
    now destruct (c (S x + S n)).
Qed.

Lemma span_le (s : jsstring) : span s <= length s.
Proof.
  induction s as [|c s IH]; simpl; [lia|]. destruct (is_space c); lia.
Qed.

Lemma skipn_span (s : jsstring) : skipn (span s) s = skip_spaces s.
Proof.
  induction s as [|c s IH]; simpl; [reflexivity|].
  destruct (is_space c); simpl; [exact IH|reflexivity].
Qed.

(** Greedy [\s*]: the continuation is tried after the whole run of
    whitespace first, then after one code unit less, and so on; the fuel
    is never the reason for a failure. *)
Lemma RepeatMatcher_Space (input : jsstring) (c : Continuation) (fuel x : nat) :
  span (skipn x input) < fuel ->
  RepeatMatcher (matcher Space input) fuel x c
  = backtrack c x (span (skipn x input)).
Proof.
  revert x; induction fuel as [|fuel IH]; intros x Hf; [lia|].
  cbn [RepeatMatcher matcher]. destruct (nth_error input x) as [d|] eqn:E.
  - rewrite (skipn_nth_some _ _ E) in *. cbn [span] in *.
    destruct (is_space d).
    + replace (S x =? x) with false by (symmetry; apply Nat.eqb_neq; lia).
      rewrite backtrack_step. rewrite IH by lia. reflexivity.
    + cbn [backtrack]. rewrite Nat.add_0_r. now destruct (c x).
  - rewrite (skipn_nth_none _ _ E). cbn [span backtrack]. rewrite Nat.add_0_r.
    now destruct (c x).
Qed.

Lemma matcher_Star_Space (input : jsstring) (c : Continuation) (x : nat) :
  matcher (Star Space) input x c = backtrack c x (span (skipn x input)).
Proof.
  change (matcher (Star Space) input x c)
    with (RepeatMatcher (matcher Space input) (S (length input)) x c).
  apply RepeatMatcher_Space.
  pose proof (span_le (skipn x input)) as H.
  rewrite length_skipn in H. lia.
Qed.

Lemma backtrack_Some (x n : nat) : backtrack Some x n = Some (x + n).
Proof. destruct n; reflexivity. Qed.

Lemma matcher_Seq r1 r2 input x c :
  matcher (Seq r1 r2) input x c
  = matcher r1 input x (fun y => matcher r2 input y c).
Proof. reflexivity. Qed.

Lemma matcher_Alt r1 r2 input x c :
  matcher (Alt r1 r2) input x c
  = match matcher r1 input x c with
    | Some e => Some e
    | None => matcher r2 input x c
    end.
Proof. reflexivity. Qed.

Lemma matcher_AssertStart input x c :
  matcher AssertStart input x c = if x =? 0 then c x else None.
Proof. reflexivity. Qed.

Lemma matcher_AssertEnd input x c :
  matcher AssertEnd input x c = if x =? length input then c x else None.
Proof. reflexivity. Qed.

(** The first alternative matches at index 0 only, and takes the marker
    and all the whitespace after it. *)
Lemma matcher_open (input : jsstring) (x : nat) :
  matcher open_alternative input x Some =
  if x =? 0
  then if starts_with fence_open input
       then Some (length fence_open + span (skipn (length fence_open) input))
       else None
  else None.
Proof.
  unfold open_alternative. rewrite matcher_Seq, matcher_AssertStart.
  destruct (Nat.eqb_spec x 0) as [->|_]; [|reflexivity].
  rewrite matcher_Seq, matcher_Str. rewrite skipn_O.
  destruct (starts_with fence_open input); [|reflexivity].
  rewrite matcher_Star_Space, backtrack_Some. reflexivity.
Qed.

Lemma backtrack_last (c : Continuation) (x n : nat) :
  (forall m, m < n -> c (x + m) = None) ->
  backtrack c x n = c (x + n).
Proof.
  induction n as [|n IH]; intros H.
  - simpl. now destruct (c (x + 0)).
  - cbn [backtrack]. destruct (c (x + S n)) eqn:E; [reflexivity|].
    rewrite IH by (intros m Hm; apply H; lia). apply H. lia.
Qed.

Lemma span_space (u : jsstring) (m : nat) :
  m < span u ->
  exists d t, skipn m u = d :: t /\ is_space d = true.
Proof.
  revert m; induction u as [|a u IH]; intros m H; simpl in H; [lia|].
  destruct (is_space a) eqn:Ea; [|lia].
  destruct m as [|m].
  - exists a, u. now split.
  - simpl. apply IH. lia.
Qed.

Lemma space_not_backtick (d : code_unit) :
  is_space d = true -> code_unit_eqb d 96%N = false.
Proof.
  intros H. destruct (code_unit_eqb d 96%N) eqn:E; [|reflexivity].
  apply code_unit_eqb_eq in E. subst d. discriminate H.
Qed.

Lemma starts_with_length (p t : jsstring) :
  starts_with p t = true -> length p <= length t.
Proof.
  revert t; induction p as [|a p IH]; intros [|b t] H; simpl in *;
    try lia; try discriminate.
  apply andb_true_iff in H as [_ H]. apply IH in H. lia.
Qed.

Lemma starts_with_whole (p t : jsstring) :
  starts_with p t = true -> length t = length p -> t = p.
Proof.
  intros H L. rewrite (starts_with_split _ _ H).
  rewrite <- L, skipn_all. now rewrite app_nil_r.
Qed.

(** The second alternative matches at [x] exactly when the rest of the
    input from [x] is whitespace and the closing fence, and the match then
    runs to the end of the input. *)
Lemma matcher_close (input : jsstring) (x : nat) :
  matcher close_alternative input x Some =
  if tail_match (skipn x input) then Some (length input) else None.
Proof.
  unfold close_alternative.
  rewrite matcher_Seq, matcher_Star_Space.
  set (u := skipn x input).
  rewrite backtrack_last.
  - rewrite matcher_Seq, matcher_Str.
    replace (skipn (x + span u) input) with (skip_spaces u)
      by (unfold u; now rewrite <- skipn_span, skipn_skipn, Nat.add_comm).
    rewrite matcher_AssertEnd. unfold tail_match.
    assert (L : length (skip_spaces u) = length input - (x + span u)).
    { unfold u. rewrite <- skipn_span, !length_skipn. lia. }
    destruct (starts_with fence_close (skip_spaces u)) eqn:E.
    + pose proof (starts_with_length _ _ E) as Hl.
      change (length fence_close) with 3 in *.
      destruct (Nat.eqb_spec (x + span u + 3) (length input)) as [He|He].
      * rewrite (starts_with_whole _ _ E) by (change (length fence_close) with 3; lia).
        simpl. f_equal. lia.
      * destruct (jsstring_eqb (skip_spaces u) fence_close) eqn:J; [|reflexivity].
        apply jsstring_eqb_eq in J. rewrite J in L. simpl in L. lia.
    + destruct (jsstring_eqb (skip_spaces u) fence_close) eqn:J; [|reflexivity].
      apply jsstring_eqb_eq in J. rewrite J in E. discriminate E.
  - intros m Hm. rewrite matcher_Seq, matcher_Str.
    replace (skipn (x + m) input) with (skipn m u)
      by (unfold u; now rewrite skipn_skipn, Nat.add_comm).
    destruct (span_space _ Hm) as (d & t & -> & Hd).
    simpl. now rewrite (space_not_backtick _ Hd).
Qed.

Lemma matcher_fence_pattern (input : jsstring) (x : nat) :
  matcher fence_pattern input x Some =
  match matcher open_alternative input x Some with
  | Some e => Some e
  | None => matcher close_alternative input x Some
  end.
Proof. reflexivity. Qed.

(* ===================================================================== *)
(** ** Search, global replace and the shape of [cleanedText] *)
(* ===================================================================== *)

Lemma find_close_eq (u : jsstring) :
  find_close u =
  if tail_match u then Some 0
  else match u with
       | [] => None
       | _ :: u' => option_map S (find_close u')
       end.
Proof. destruct u; reflexivity. Qed.

Lemma skip_spaces_length (u : jsstring) : length (skip_spaces u) <= length u.
Proof.
  induction u as [|c u IH]; simpl; [lia|].
  destruct (is_space c); simpl; lia.
Qed.

Lemma tail_match_length (u : jsstring) : tail_match u = true -> 3 <= length u.
Proof.
  unfold tail_match. intros H. apply jsstring_eqb_eq in H.
  pose proof (skip_spaces_length u) as L. rewrite H in L. exact L.
Qed.

Lemma find_close_bound (u : jsstring) (k : nat) :
  find_close u = Some k ->
  k + 3 <= length u /\ tail_match (skipn k u) = true.
Proof.
  revert k; induction u as [|c u IH]; intros k H; rewrite find_close_eq in H.
  - destruct (tail_match []) eqn:E; [|discriminate].
    apply tail_match_length in E. simpl in E. lia.
  - destruct (tail_match (c :: u)) eqn:E.
    + inversion H; subst. split; [apply tail_match_length in E; simpl in *; lia|].
      exact E.
    + destruct (find_close u) as [k'|] eqn:F; [|discriminate].
      inversion H; subst. destruct (IH k' eq_refl) as [H1 H2].
      split; [simpl; lia|exact H2].
Qed.

(** From an index where the first alternative cannot match, the search
    finds the first suffix that is whitespace and closing fence. *)
Lemma search_close (input : jsstring) (n x : nat) :
  0 < x \/ starts_with fence_open input = false ->
  x + n = S (length input) ->
  search fence_pattern input n x =
  match find_close (skipn x input) with
  | Some k => Some (x + k, length input)
  | None => None
  end.
Proof.
  intros Hx. revert x Hx; induction n as [|n IH]; intros x Hx Hn.
  - rewrite skipn_all2 by lia. reflexivity.
  - cbn [search]. rewrite matcher_fence_pattern, matcher_open, matcher_close.
    assert (Hopen : (if x =? 0
                     then if starts_with fence_open input
                          then Some (length fence_open
                                     + span (skipn (length fence_open) input))
                          else None
                     else None) = None).
    { destruct (Nat.eqb_spec x 0) as [->|]; [|reflexivity].
      destruct Hx as [Hx|Hx]; [lia|]. now rewrite Hx. }
    rewrite Hopen. rewrite (find_close_eq (skipn x input)).
    destruct (tail_match (skipn x input)); [now rewrite Nat.add_0_r|].
    rewrite IH by (try lia; left; lia).
    destruct (nth_error input x) as [d|] eqn:E.
    + rewrite (skipn_nth_some _ _ E).
      destruct (find_close (skipn (S x) input)); simpl; [|reflexivity].
      do 2 f_equal. lia.
    + rewrite (skipn_nth_none _ _ E).
      rewrite skipn_all2; [reflexivity|].
      apply nth_error_None in E. lia.
Qed.

Lemma exec_close (input : jsstring) (x : nat) :
  0 < x \/ starts_with fence_open input = false ->
  x <= length input ->
  RegExpBuiltinExec fence_pattern input x =
  match find_close (skipn x input) with
  | Some k => Some (x + k, length input)
  | None => None
  end.
Proof.
  intros Hx Hl. unfold RegExpBuiltinExec. apply search_close; [exact Hx|lia].
Qed.

Lemma exec_at_end (input : jsstring) :
  0 < length input ->
  RegExpBuiltinExec fence_pattern input (length input) = None.
Proof.
  intros H. rewrite exec_close by (auto; lia). now rewrite skipn_all.
Qed.

(** After the opening marker at most one more match is found, and it runs
    to the end of the input. *)
Lemma collect_close (input : jsstring) (fuel x : nat) :
  0 < x \/ starts_with fence_open input = false ->
  x <= length input ->
  collect fence_pattern input (S (S fuel)) x =
  match find_close (skipn x input) with
  | Some k => [(x + k, length input)]
  | None => []
  end.
Proof.
  intros Hx Hl. cbn [collect]. rewrite exec_close by assumption.
  destruct (find_close (skipn x input)) as [k|] eqn:F; [|reflexivity].
  apply find_close_bound in F as [Hk _]. rewrite length_skipn in Hk.
  replace (length input =? x + k) with false
    by (symmetry; apply Nat.eqb_neq; lia).
  rewrite exec_at_end by lia. reflexivity.
Qed.

Lemma collect_S (r : regex) (input : jsstring) (fuel x : nat) :
  collect r input (S fuel) x =
  match RegExpBuiltinExec r input x with
  | None => []
  | Some (position, e) =>
      (position, e) :: collect r input fuel (if e =? position then S e else e)
  end.
Proof. reflexivity. Qed.

Lemma exec_open (input : jsstring) :
  starts_with fence_open input = true ->
  RegExpBuiltinExec fence_pattern input 0 =
  Some (0, length fence_open + span (skipn (length fence_open) input)).
Proof.
  intros H. unfold RegExpBuiltinExec. rewrite Nat.sub_0_r. cbn [search].
  rewrite matcher_fence_pattern, matcher_open. now rewrite H.
Qed.

Lemma drop_open_skipn (s : jsstring) :
  starts_with fence_open s = true ->
  drop_open s = skipn (length fence_open + span (skipn (length fence_open) s)) s.
Proof.
  intros H. unfold drop_open. rewrite H.
  rewrite <- skipn_span, skipn_skipn. f_equal. lia.
Qed.

(** The matches of the global replace, whatever the fuel from 3 on: the
    loop over the matches ends because the input is exhausted, never
    because the fuel is. *)
Lemma substitute_collect (s : jsstring) (fuel : nat) :
  3 <= fuel \/ (2 <= fuel /\ starts_with fence_open s = false) ->
  substitute s (collect fence_pattern s fuel 0) [] 0
  = drop_close (drop_open s).
Proof.
  intros Hf. destruct (starts_with fence_open s) eqn:Hopen.
  - destruct Hf as [Hf|[_ Hf]]; [|discriminate Hf].
    destruct fuel as [|[|[|fuel]]]; try lia.
    pose proof (starts_with_length _ _ Hopen) as Hlen.
    pose proof (span_le (skipn (length fence_open) s)) as Hspan.
    rewrite length_skipn in Hspan.
    rewrite (drop_open_skipn _ Hopen).
    set (e1 := length fence_open + span (skipn (length fence_open) s)) in *.
    assert (H11 : 11 <= e1) by (unfold e1; change (length fence_open) with 11; lia).
    assert (He1 : e1 <= length s) by (unfold e1; lia).
    rewrite collect_S, (exec_open _ Hopen). fold e1.
    replace (e1 =? 0) with false by (symmetry; apply Nat.eqb_neq; lia).
    rewrite collect_close by (auto; lia).
    unfold drop_close.
    destruct (find_close (skipn e1 s)) as [k|]; cbn [substitute].
    + rewrite Nat.leb_refl. replace (e1 <=? e1 + k) with true
        by (symmetry; apply Nat.leb_le; lia).
      unfold substring. rewrite skipn_all, Nat.sub_diag.
      replace (e1 + k - e1) with k by lia.
      simpl. now rewrite !app_nil_r.
    + rewrite Nat.leb_refl. unfold substring. reflexivity.
  - assert (H2 : 2 <= fuel) by (destruct Hf as [Hf|[Hf _]]; lia).
    destruct fuel as [|[|fuel]]; try lia.
    unfold drop_open. rewrite Hopen.
    rewrite collect_close by (auto; lia). rewrite skipn_O.
    unfold drop_close.
    destruct (find_close s) as [k|]; cbn [substitute].
    + unfold substring. rewrite skipn_all, Nat.sub_0_r.
      simpl. now rewrite !app_nil_r.
    + reflexivity.
Qed.

(** The transform removes a leading [```markdown] with the whitespace
    after it, and then the first suffix of what is left that consists of
    whitespace and [```] only. *)
Theorem cleanedText_spec (s : jsstring) :
  cleanedText s = drop_close (drop_open s).
Proof.
  unfold cleanedText, replace. apply substitute_collect.
  destruct (starts_with fence_open s) eqn:Hopen.
  - apply starts_with_length in Hopen.
    change (length fence_open) with 11 in Hopen. left. lia.
  - right. split; [lia|reflexivity].
Qed.

(* ===================================================================== *)
(** ** Properties of the two removals *)
(* ===================================================================== *)

Lemma ends_with_app (p a : jsstring) : ends_with p (a ++ p) = true.
Proof. unfold ends_with. rewrite rev_app_distr. apply starts_with_app. Qed.

Lemma ends_with_split (p s : jsstring) :
  ends_with p s = true -> exists a, s = a ++ p.
Proof.
  unfold ends_with. intros H. apply starts_with_split in H.
  exists (rev (skipn (length (rev p)) (rev s))).
  rewrite <- (rev_involutive s) at 1. rewrite H at 1.
  now rewrite rev_app_distr, rev_involutive.
Qed.

Lemma skip_spaces_app (l m : jsstring) :
  skip_spaces (l ++ m) =
  if forallb is_space l then skip_spaces m else skip_spaces l ++ m.
Proof.
  induction l as [|c l IH]; simpl; [reflexivity|].
  destruct (is_space c); simpl; [exact IH|reflexivity].
Qed.

Lemma skip_spaces_all (l : jsstring) :
  forallb is_space l = true -> skip_spaces l = [].
Proof.
  induction l as [|c l IH]; simpl; [reflexivity|].
  destruct (is_space c); simpl; [exact IH|discriminate].
Qed.

Lemma skip_spaces_some (l : jsstring) :
  forallb is_space l = false -> skip_spaces l <> [].
Proof.
  induction l as [|c l IH]; simpl; [discriminate|].
  destruct (is_space c); simpl; [exact IH|discriminate].
Qed.

Lemma span_all_space (l : jsstring) : forallb is_space (firstn (span l) l) = true.
Proof.
  induction l as [|c l IH]; simpl; [reflexivity|].
  destruct (is_space c) eqn:E; simpl; [now rewrite E|reflexivity].
Qed.

Lemma forallb_rev (A : Type) (f : A -> bool) (l : list A) :
  forallb f (rev l) = forallb f l.
Proof.
  induction l as [|a l IH]; simpl; [reflexivity|].
  rewrite forallb_app, IH. simpl. rewrite andb_true_r. apply andb_comm.
Qed.

(** Trailing whitespace goes, one code unit at a time from the left. *)
Lemma trim_end_cons (c : code_unit) (u : jsstring) :
  trim_end (c :: u) =
  if forallb is_space (c :: u) then [] else c :: trim_end u.
Proof.
  unfold trim_end. cbn [rev forallb]. rewrite skip_spaces_app, forallb_rev.
  destruct (forallb is_space u) eqn:Eu.
  - rewrite andb_true_r. cbn [skip_spaces].
    destruct (is_space c); [reflexivity|].
    rewrite skip_spaces_all by (now rewrite forallb_rev). reflexivity.
  - rewrite andb_false_r. rewrite rev_app_distr. reflexivity.
Qed.

(** A suffix is whitespace and closing fence exactly when it splits so. *)
Lemma tail_match_split (t : jsstring) :
  tail_match t = true ->
  exists w, forallb is_space w = true /\ t = w ++ fence_close.
Proof.
  unfold tail_match. intros H. apply jsstring_eqb_eq in H.
  exists (firstn (span t) t). split; [apply span_all_space|].
  rewrite <- H, <- skipn_span. symmetry. apply firstn_skipn.
Qed.

Lemma tail_match_app (u : jsstring) :
  tail_match (u ++ fence_close) = forallb is_space u.
Proof.
  unfold tail_match. rewrite skip_spaces_app.
  destruct (forallb is_space u) eqn:E; [reflexivity|].
  destruct (jsstring_eqb (skip_spaces u ++ fence_close) fence_close) eqn:J;
    [|reflexivity].
  apply jsstring_eqb_eq in J. apply (f_equal (@length _)) in J.
  rewrite length_app in J. apply skip_spaces_some in E.
  destruct (skip_spaces u); [congruence|]. simpl in J. lia.
Qed.

Lemma find_close_app (a : jsstring) :
  exists k, find_close (a ++ fence_close) = Some k.
Proof.
  induction a as [|c a [k IH]]; rewrite find_close_eq, tail_match_app.
  - now exists 0.
  - destruct (forallb is_space (c :: a)); [now exists 0|].
    cbn [app]. rewrite IH. now exists (S k).
Qed.

(** With a closing fence at the very end, what is removed is the fence and
    the whitespace before it. *)
Lemma drop_close_app (u : jsstring) :
  drop_close (u ++ fence_close) = trim_end u.
Proof.
  induction u as [|c u IH]; [reflexivity|].
  rewrite trim_end_cons. unfold drop_close in *.
  rewrite find_close_eq, tail_match_app.
  destruct (forallb is_space (c :: u)); [reflexivity|].
  cbn [app]. destruct (find_close_app u) as [k Hk]. rewrite Hk in *.
  simpl. now rewrite IH.
Qed.

Lemma skip_spaces_app_fence (c : jsstring) :
  skip_spaces (c ++ fence_close) = skip_spaces c ++ fence_close.
Proof.
  rewrite skip_spaces_app.
  destruct (forallb is_space c) eqn:E; [|reflexivity].
  now rewrite (skip_spaces_all _ E).
Qed.

Lemma find_close_split (u : jsstring) (k : nat) :
  find_close u = Some k ->
  exists w, forallb is_space w = true /\ u = firstn k u ++ w ++ fence_close.
Proof.
  intros H. apply find_close_bound in H as [_ H].
  apply tail_match_split in H as (w & Hw & E).
  exists w. split; [exact Hw|]. rewrite <- E. symmetry. apply firstn_skipn.
Qed.

Lemma find_close_none (u : jsstring) :
  ends_with fence_close u = false -> find_close u = None.
Proof.
  intros H. destruct (find_close u) as [k|] eqn:F; [|reflexivity].
  apply find_close_split in F as (w & _ & E).
  rewrite E, app_assoc, ends_with_app in H. discriminate H.
Qed.

Lemma drop_close_length (u : jsstring) : length (drop_close u) <= length u.
Proof.
  unfold drop_close. destruct (find_close u); [|lia].
  rewrite length_firstn. lia.
Qed.

Lemma drop_open_length (s : jsstring) :
  starts_with fence_open s = true -> length (drop_open s) < length s.
Proof.
  intros H. pose proof (starts_with_length _ _ H) as L.
  unfold drop_open. rewrite H.
  pose proof (skip_spaces_length (skipn (length fence_open) s)) as L'.
  rewrite length_skipn in L'. change (length fence_open) with 11 in *. lia.
Qed.

Lemma starts_with_open_close (s : jsstring) :
  starts_with fence_open s = true -> starts_with fence_close s = true.
Proof.
  intros H. apply starts_with_split in H. rewrite H.
  change fence_open with (fence_close ++ lit "markdown").
  rewrite <- app_assoc. apply starts_with_app.
Qed.

Lemma has_fence_eq (s : jsstring) :
  has_fence s =
  starts_with fence_close s
  || match s with [] => false | _ :: s' => has_fence s' end.
Proof. destruct s; reflexivity. Qed.

Lemma has_fence_tail_match (t : jsstring) :
  tail_match t = true -> has_fence t = true.
Proof.
  induction t as [|c t IH]; intros H; [discriminate H|].
  rewrite has_fence_eq. unfold tail_match in *. cbn [skip_spaces] in H.
  destruct (is_space c).
  - rewrite (IH H). apply orb_true_r.
  - apply jsstring_eqb_eq in H. rewrite H. reflexivity.
Qed.

Lemma has_fence_find_close (u : jsstring) :
  has_fence u = false -> find_close u = None.
Proof.
  induction u as [|c u IH]; intros H; rewrite find_close_eq.
  - reflexivity.
  - destruct (tail_match (c :: u)) eqn:E.
    + apply has_fence_tail_match in E. congruence.
    + rewrite has_fence_eq in H. apply orb_false_iff in H as [_ H].
      now rewrite (IH H).
Qed.

(** The strings the transform leaves alone are those that neither begin
    with [```markdown] nor end with [```]. *)
Lemma cleanedText_fixed (t : jsstring) :
  cleanedText t = t <->
  starts_with fence_open t = false /\ ends_with fence_close t = false.
Proof.
  rewrite cleanedText_spec. split.
  - intros H. destruct (starts_with fence_open t) eqn:Ho.
    + pose proof (drop_open_length _ Ho) as L.
      pose proof (drop_close_length (drop_open t)) as L'.
      rewrite H in L'. lia.
    + split; [reflexivity|].
      destruct (ends_with fence_close t) eqn:Ec; [|reflexivity].
      unfold drop_open in H. rewrite Ho in H.
      apply ends_with_split in Ec as [a Ea].
      destruct (find_close_app a) as [k Hk]. rewrite <- Ea in Hk.
      unfold drop_close in H. rewrite Hk in H.
      apply find_close_bound in Hk as [Hk _].
      apply (f_equal (@length _)) in H. rewrite length_firstn in H. lia.
  - intros [Ho Ec]. unfold drop_open. rewrite Ho.
    unfold drop_close. now rewrite find_close_none.
Qed.

Lemma drop_open_split (s : jsstring) :
  exists pre, s = pre ++ drop_open s /\ removed_open pre
              /\ (starts_with fence_open s = false -> pre = []).
Proof.
  unfold drop_open. destruct (starts_with fence_open s) eqn:Ho.
  - set (r := skipn (length fence_open) s).
    exists (fence_open ++ firstn (span r) r). repeat split.
    + rewrite <- app_assoc, <- skipn_span, firstn_skipn.
      now apply starts_with_split.
    + right. exists (firstn (span r) r). split; [apply span_all_space|reflexivity].
    + discriminate.
  - exists []. repeat split. now left.
Qed.

Lemma drop_close_split (u : jsstring) :
  exists suf, u = drop_close u ++ suf /\ removed_close suf
              /\ (ends_with fence_close u = false -> suf = []).
Proof.
  unfold drop_close. destruct (find_close u) as [k|] eqn:F.
  - destruct (find_close_split _ F) as (w & Hw & E).
    exists (w ++ fence_close). repeat split.
    + exact E.
    + right. now exists w.
    + intros H. rewrite (find_close_none _ H) in F. discriminate F.
  - exists []. repeat split; [now rewrite app_nil_r|now left].
Qed.

(** Only a prefix and a suffix are removed, each of the shape the pattern
    describes; everything in between stays as it is. *)
Lemma cleanedText_split (s : jsstring) :
  exists pre suf,
    s = pre ++ cleanedText s ++ suf
    /\ removed_open pre /\ removed_close suf
    /\ (starts_with fence_open s = false -> pre = [])
    /\ (ends_with fence_close s = false -> suf = []).
Proof.
  rewrite cleanedText_spec.
  destruct (drop_open_split s) as (pre & E1 & P1 & Q1).
  destruct (drop_close_split (drop_open s)) as (suf & E2 & P2 & Q2).
  exists pre, suf. repeat split; try assumption.
  - now rewrite <- E2.
  - intros H. destruct P2 as [->|(w & Hw & ->)]; [reflexivity|].
    rewrite E1, E2, !app_assoc, ends_with_app in H. discriminate H.
Qed.

(** Between the two markers the content comes out trimmed. *)
Lemma cleanedText_fenced (content : jsstring) :
  cleanedText (fence_open ++ content ++ fence_close)
  = trim_end (trim_start content).
Proof.
  rewrite cleanedText_spec. unfold drop_open.
  rewrite starts_with_app, skipn_app, skipn_all, Nat.sub_diag, skipn_O.
  cbn [app]. rewrite skip_spaces_app_fence. apply drop_close_app.
Qed.

(** A string without any fence marker is left as it is. *)
Lemma cleanedText_no_fence (s : jsstring) :
  has_fence s = false -> cleanedText s = s.
Proof.
  intros H. rewrite cleanedText_spec.
  assert (Ho : starts_with fence_open s = false).
  { destruct (starts_with fence_open s) eqn:E; [|reflexivity].
    apply starts_with_open_close in E. rewrite has_fence_eq, E in H.
    discriminate H. }
  unfold drop_open. rewrite Ho. unfold drop_close.
  now rewrite has_fence_find_close.
Qed.

(* ===================================================================== *)
(** ** The guard of [convertToMarkdown] on the shapes of a response *)
(* ===================================================================== *)

Section Controller.

Variable type_error_message : type_error -> jsstring.
Variable coerce_number : value -> completion spec_float.
Variable apiKey : jsstring.

Local Abbreviation get := (GetV type_error_message).
Local Abbreviation path := (GetPath type_error_message).
Local Abbreviation guard := (has_content type_error_message coerce_number).
Local Abbreviation body := (convert_body type_error_message coerce_number).
Local Abbreviation resume := (convert_resume type_error_message coerce_number).
Local Abbreviation convert :=
  (convertToMarkdown type_error_message coerce_number apiKey).

Lemma get_obj props key :
  get (VObj props) key = Normal (of_option (own_property key props)).
Proof. reflexivity. Qed.

Lemma get_arr_length items :
  get (VArr items) (lit "length")
  = Normal (VNum (number_of_nat (length items))).
Proof. reflexivity. Qed.

Lemma get_arr_0 items :
  get (VArr items) (lit "0") = Normal (of_option (nth_error items 0)).
Proof. reflexivity. Qed.

Lemma path_cons v key keys :
  path v (key :: keys) = cbind (get v key) (fun v' => path v' keys).
Proof. reflexivity. Qed.

Lemma path_nil v : path v [] = Normal v.
Proof. reflexivity. Qed.

Lemma greater_than_zero_length (n : nat) :
  greater_than_zero coerce_number (VNum (number_of_nat n)) = Normal (0 <? n).
Proof. destruct n; reflexivity. Qed.

Ltac walk :=
  repeat (rewrite ?path_cons, ?path_nil, ?get_obj, ?get_arr_length, ?get_arr_0,
            ?greater_than_zero_length;
          cbn [of_option cbind nth_error js_and truthy length Nat.ltb Nat.leb];
          try match goal with
              | H : own_property _ _ = _ |- _ => rewrite H
              end).

Ltac paths :=
  unfold has_content, text_path, parts_path, content_path, candidates_path;
  cbn [app].

(** On a well-formed response the guard holds and the text is read. *)
Lemma guard_well_formed result text :
  well_formed_response result text ->
  guard result = Normal true /\ path result text_path = Normal (VStr text).
Proof.
  intros (props & cand & cands & cont & part & parts' & -> & H1 & H2 & H3 & H4).
  split; paths; walk; reflexivity.
Qed.

(** On the missing shapes the guard is false, without a TypeError. *)
Lemma guard_missing_shape result :
  missing_shape result -> guard result = Normal false.
Proof.
  intros H; destruct H;
    repeat match goal with
           | A : absent _ |- _ => destruct A
           end;
    paths; walk; reflexivity.
Qed.

(* ===================================================================== *)
(** ** The three ways a conversion attempt ends *)
(* ===================================================================== *)

Lemma start_world st tr :
  convert_start apiKey (mkWorld st tr)
  = (mkWorld (mkState (inputText st) [] true [] (lit "Copy Markdown") false)
             (tr ++ [Fetch (apiUrl apiKey) (payload (inputText st))]),
     Normal tt).
Proof. reflexivity. Qed.

Lemma convert_world o st :
  run (convert o) st
  = resume o (mkWorld (mkState (inputText st) [] true [] (lit "Copy Markdown") false)
                      [Fetch (apiUrl apiKey) (payload (inputText st))]).
Proof.
  unfold run, convertToMarkdown, bind. now rewrite start_world.
Qed.

(** Success: the cleaned text is stored, and loading ends. *)
Lemma resume_well_formed result text w :
  well_formed_response result text ->
  resume (Parsed result) w
  = (mkWorld (setIsLoading false (setMarkdownOutput (cleanedText text) (ui w)))
             (trace w ++ [ConsoleLog (lit "Generated Markdown:") (VStr text)]),
     Normal tt).
Proof.
  intros H. destruct (guard_well_formed H) as [G T].
  unfold convert_resume, try_finally, try_catch, convert_body, bind, lift.
  rewrite G, T. reflexivity.
Qed.

(** Structural failure: the fixed message is stored, and loading ends. *)
Lemma resume_missing_shape result w :
  missing_shape result ->
  resume (Parsed result) w
  = (mkWorld (setIsLoading false (setError failed_message (ui w)))
             (trace w ++ [ConsoleError (lit "Unexpected API response structure:")
                                       (LoggedValue result)]),
     Normal tt).
Proof.
  intros H. apply guard_missing_shape in H.
  unfold convert_resume, try_finally, try_catch, convert_body, bind, lift.
  rewrite H. reflexivity.
Qed.

(** An exception in the [try] block leaves the state cells as they were,
    and whether it is thrown does not depend on the state. *)
Lemma body_throw o w w' msg :
  body o w = (w', Throw msg) ->
  ui w' = ui w /\ forall w2, snd (body o w2) = Throw msg.
Proof.
  destruct o as [m|m|result]; cbn [convert_body].
  - unfold throw. intros H. inversion H; subst. now split.
  - unfold throw. intros H. inversion H; subst. now split.
  - unfold bind, lift.
    destruct (guard result) as [[|]|m] eqn:G.
    + destruct (path result text_path) as [text|m] eqn:T.
      * unfold emit. cbn [ui trace].
        destruct (call_replace type_error_message text) as [cleaned|m] eqn:R.
        -- unfold set. intros H. inversion H.
        -- intros H. inversion H; subst. now split.
      * intros H. inversion H; subst. now split.
    + unfold set, emit. intros H. inversion H.
    + intros H. inversion H; subst. now split.
Qed.

(** Exception: the message is stored behind the fixed prefix, and loading
    ends. *)
Lemma resume_throw o w w' msg :
  body o w = (w', Throw msg) ->
  resume o w
  = (mkWorld (setIsLoading false (setError (error_prefix ++ msg) (ui w)))
             (trace w' ++ [ConsoleError (lit "Error during Markdown conversion:")
                                        (LoggedError msg)]),
     Normal tt).
Proof.
  intros H. destruct (body_throw _ _ H) as [U _].
  unfold convert_resume, try_finally, try_catch. rewrite H.
  unfold bind, set, emit. cbn [ui trace]. now rewrite U.
Qed.

(** Whatever the outcome, the handler ends normally with loading off. *)
Lemma resume_finally o w :
  isLoading (ui (fst (resume o w))) = false /\ snd (resume o w) = Normal tt.
Proof.
  unfold convert_resume, try_finally, try_catch.
  destruct (body o w) as [w' [[]|m]]; split; reflexivity.
Qed.

(* ===================================================================== *)
(** ** The claims about the conversion *)
(* ===================================================================== *)

(** C1.  On a well-formed response the stored [markdownOutput] is the
    response text after the fence stripping.  When the text is the
    [```markdown] marker, a content and the [```] marker, what is stored
    is the content without the whitespace at its two ends.  In general the
    stored text is the response text less one optional prefix (the marker
    [```markdown] and the whitespace after it) and one optional suffix
    (whitespace and the marker [```]); a text that does not begin with
    [```markdown] loses nothing in front (a leading bare fence stays), a
    text that does not end with [```] loses nothing at the end, and what
    lies between, fences included, is stored verbatim. *)
Theorem fence_stripping_stored st result text :
  well_formed_response result text ->
  let out := markdownOutput (state_after (convert (Parsed result)) st) in
  out = cleanedText text
  /\ (forall content,
        text = fence_open ++ content ++ fence_close ->
        out = trim_end (trim_start content))
  /\ (exists pre suf,
        text = pre ++ out ++ suf
        /\ removed_open pre /\ removed_close suf
        /\ (starts_with fence_open text = false -> pre = [])
        /\ (ends_with fence_close text = false -> suf = []))
  /\ (starts_with fence_open text = false ->
      ends_with fence_close text = false -> out = text).
Proof.
  intros H out.
  assert (E : out = cleanedText text).
  { unfold out, state_after. rewrite convert_world.
    now rewrite (resume_well_formed _ H). }
  rewrite E. repeat split.
  - intros content ->. apply cleanedText_fenced.
  - apply cleanedText_split.
  - intros Ho Hc. now apply cleanedText_fixed.
Qed.

(** C2.  Whatever the input text, when the response is well formed and the
    text of the first part of its candidate is the line [```markdown], the
    line [Hello] and [```], the stored [markdownOutput] is exactly
    [Hello]. *)
Theorem hello_stored st result :
  well_formed_response result
    (lit ("```markdown" +++ NL +++ "Hello" +++ NL +++ "```")) ->
  markdownOutput (state_after (convert (Parsed result)) st) = lit "Hello".
Proof.
  intros H. unfold state_after. rewrite convert_world.
  rewrite (resume_well_formed _ H). reflexivity.
Qed.

(** C4.  After a conversion attempt has concluded [isLoading] is false,
    for every outcome of the awaits (a rejected call, a body that does not
    parse, any parsed result: success, structural error or TypeError) and
    from whatever state the handler resumes; the handler itself never ends
    with an exception. *)
Theorem isLoading_cleared o w st :
  isLoading (ui (fst (resume o w))) = false
  /\ snd (resume o w) = Normal tt
  /\ isLoading (state_after (convert o) st) = false.
Proof.
  destruct (resume_finally o w) as [A B]. repeat split; try assumption.
  unfold state_after. rewrite convert_world. apply resume_finally.
Qed.

(** For a response that lacks the expected shape (candidates absent
    or null, an empty candidates array, a candidate whose content is
    absent or null, content whose parts are absent or null, an empty parts
    array) the handler, once resumed, sets [error]
    to the fixed message and [isLoading] to false and logs the response,
    nothing else; over the whole attempt [markdownOutput] is empty, the
    error is that non-empty message, and the only request is the first
    one. *)
Theorem structural_error result w st :
  missing_shape result ->
  resume (Parsed result) w
  = (mkWorld (setIsLoading false (setError failed_message (ui w)))
             (trace w ++ [ConsoleError (lit "Unexpected API response structure:")
                                       (LoggedValue result)]),
     Normal tt)
  /\ run (convert (Parsed result)) st
     = (mkWorld (mkState (inputText st) [] false failed_message
                         (lit "Copy Markdown") false)
                [Fetch (apiUrl apiKey) (payload (inputText st));
                 ConsoleError (lit "Unexpected API response structure:")
                              (LoggedValue result)],
        Normal tt)
  /\ string_truthy failed_message = true.
Proof.
  intros H. repeat split.
  - now apply resume_missing_shape.
  - rewrite convert_world. now rewrite (resume_missing_shape _ H).
Qed.

(** C6.  When the call is rejected, or the parsing of the body is
    rejected, or any other exception with message [msg] ends the [try]
    block, the attempt leaves [error] equal to the fixed prefix followed
    by [msg], [markdownOutput] empty and [isLoading] false. *)
Theorem exception_reported o msg st :
  o = FetchRejected msg \/ o = JsonRejected msg
  \/ snd (run (body o) st) = Throw msg ->
  state_after (convert o) st
  = mkState (inputText st) [] false (error_prefix ++ msg)
            (lit "Copy Markdown") false.
Proof.
  intros H.
  assert (T : forall w, exists w', body o w = (w', Throw msg)).
  { intros w. destruct H as [->|[->|H]].
    - now exists w.
    - now exists w.
    - unfold run in H.
      destruct (body o (mkWorld st [])) as [w1 r] eqn:E. cbn [snd] in H.
      subst r. destruct (body_throw _ _ E) as [_ I].
      specialize (I w). destruct (body o w) as [w' r']. cbn [snd] in I.
      subst r'. now exists w'. }
  unfold state_after. rewrite convert_world.
  match goal with |- context [resume o ?w] => destruct (T w) as [w' E] end.
  now rewrite (resume_throw _ _ E).
Qed.

(* ===================================================================== *)
(** ** The claims about the other handlers *)
(* ===================================================================== *)

(** C7.  From every state, "Clear All" leaves [inputText],
    [markdownOutput], [error], [copyButtonText] and [showPreview] at their
    initial values: empty strings, the label [Copy Markdown], preview
    off. *)
Theorem clear_resets st :
  state_after clearAll st
  = mkState [] [] (isLoading st) [] (lit "Copy Markdown") false
  /\ inputText (state_after clearAll st) = inputText initial_state
  /\ markdownOutput (state_after clearAll st) = markdownOutput initial_state
  /\ error (state_after clearAll st) = error initial_state
  /\ copyButtonText (state_after clearAll st) = copyButtonText initial_state
  /\ showPreview (state_after clearAll st) = showPreview initial_state.
Proof. repeat split. Qed.

(** C8.  Toggling the preview negates [showPreview], so toggling twice
    gives back the state one started from; [markdownOutput] is the same
    after one toggle and after two. *)
Theorem toggle_involution st :
  showPreview (state_after togglePreview st) = negb (showPreview st)
  /\ state_after togglePreview (state_after togglePreview st) = st
  /\ markdownOutput (state_after togglePreview st) = markdownOutput st
  /\ markdownOutput (state_after togglePreview (state_after togglePreview st))
     = markdownOutput st.
Proof.
  destruct st as [i m l e c p]. repeat split.
  unfold state_after, run, togglePreview, bind, read, set, setShowPreview.
  cbn. now rewrite negb_involutive.
Qed.

(** With a non-empty [markdownOutput], when the copy command throws,
    [error] becomes the fixed clipboard message and [copyButtonText] (like
    the other cells) stays as it was; no timer is set. *)
Theorem copy_failure st msg :
  string_truthy (markdownOutput st) = true ->
  state_after (copyToClipboard (Threw msg)) st
  = setError copy_failed_message st
  /\ error (state_after (copyToClipboard (Threw msg)) st) = copy_failed_message
  /\ copyButtonText (state_after (copyToClipboard (Threw msg)) st)
     = copyButtonText st
  /\ effects_of (copyToClipboard (Threw msg)) st
     = [CreateTextarea; SetTextareaValue (markdownOutput st); AppendChild;
        SelectTextarea; ExecCommandCopy;
        ConsoleError (lit "Failed to copy text: ") (LoggedError msg);
        RemoveChild].
Proof.
  intros H.
  unfold state_after, effects_of, run, copyToClipboard, bind, read.
  cbn [ui]. rewrite H. repeat split.
Qed.

(** C10.  With an empty [markdownOutput] the copy handler changes no state
    cell and touches neither the document nor the clipboard, however the
    copy command would have ended. *)
Theorem copy_empty st o :
  markdownOutput st = [] ->
  run (copyToClipboard o) st = (mkWorld st [], Normal tt).
Proof.
  intros H. unfold run, copyToClipboard, bind, read. cbn [ui].
  rewrite H. reflexivity.
Qed.

End Controller.

(* ===================================================================== *)
(** ** The claim about applying the transform twice *)
(* ===================================================================== *)

(** C3 (as amended).  A string without a fence marker is returned
    unchanged.  Applying the transform to its own output gives that output
    again exactly when the output neither begins with [```markdown] nor
    ends with [```]; in particular when the output has no fence marker. *)
Theorem stripping_twice s :
  (has_fence s = false -> cleanedText s = s)
  /\ (cleanedText (cleanedText s) = cleanedText s <->
      starts_with fence_open (cleanedText s) = false
      /\ ends_with fence_close (cleanedText s) = false)
  /\ (has_fence (cleanedText s) = false ->
      cleanedText (cleanedText s) = cleanedText s).
Proof.
  repeat split.
  - apply cleanedText_no_fence.
  - now apply cleanedText_fixed.
  - now apply cleanedText_fixed.
  - intros [H1 H2]. now apply cleanedText_fixed.
  - apply cleanedText_no_fence.
Qed.

(** One application removes one marker at each end: with the opening
    marker written twice, the second application removes the second. *)
Lemma stripping_twice_differs :
  cleanedText (cleanedText (lit "```markdown```markdownHi"))
  <> cleanedText (lit "```markdown```markdownHi").
Proof. vm_compute. discriminate. Qed.

(* ===================================================================== *)
(** ** Concrete runs *)
(* ===================================================================== *)

Lemma response_of_well_formed text :
  well_formed_response (response_of text) text.
Proof.
  unfold well_formed_response, response_of.
  do 6 eexists. repeat split; reflexivity.
Defined.

Lemma fence_stripping_stored_witness :
  well_formed_response (response_of (lit "```markdown # Title ```"))
                       (lit "```markdown # Title ```")
  /\ markdownOutput
       (state_after
          (convertToMarkdown sample_type_error_message sample_coerce_number
             sample_apiKey (Parsed (response_of (lit "```markdown # Title ```"))))
          sample_state)
     = lit "# Title".
Proof.
  split; [apply response_of_well_formed|].
  destruct (@fence_stripping_stored sample_type_error_message
              sample_coerce_number sample_apiKey sample_state _ _
              (response_of_well_formed (lit "```markdown # Title ```")))
    as [E _].
  rewrite E. vm_compute. reflexivity.
Defined.

Lemma hello_stored_witness :
  well_formed_response
    (response_of (lit ("```markdown" +++ NL +++ "Hello" +++ NL +++ "```")))
    (lit ("```markdown" +++ NL +++ "Hello" +++ NL +++ "```"))
  /\ markdownOutput
       (state_after
          (convertToMarkdown sample_type_error_message sample_coerce_number
             sample_apiKey
             (Parsed (response_of
                        (lit ("```markdown" +++ NL +++ "Hello" +++ NL +++ "```")))))
          sample_state)
     = lit "Hello".
Proof.
  split; [apply response_of_well_formed|].
  apply (@hello_stored sample_type_error_message sample_coerce_number
           sample_apiKey sample_state).
  apply response_of_well_formed.
Defined.

Lemma stripping_twice_witness :
  has_fence (lit "Hello") = false /\ cleanedText (lit "Hello") = lit "Hello".
Proof.
  split; [reflexivity|].
  apply (proj1 (stripping_twice (lit "Hello"))). reflexivity.
Defined.

Lemma structural_error_witness :
  missing_shape (VObj [(lit "candidates", VArr [])])
  /\ state_after
       (convertToMarkdown sample_type_error_message sample_coerce_number
          sample_apiKey (Parsed (VObj [(lit "candidates", VArr [])])))
       sample_state
     = mkState (lit "Title") [] false failed_message (lit "Copy Markdown") false.
Proof.
  assert (H : missing_shape (VObj [(lit "candidates", VArr [])]))
    by (apply empty_candidates; reflexivity).
  split; [exact H|].
  destruct (@structural_error sample_type_error_message sample_coerce_number
              sample_apiKey _ (mkWorld sample_state []) sample_state H)
    as (_ & E & _).
  unfold state_after. rewrite E. reflexivity.
Defined.

Lemma exception_reported_witness :
  state_after
    (convertToMarkdown sample_type_error_message sample_coerce_number
       sample_apiKey (FetchRejected (lit "Failed to fetch")))
    sample_state
  = mkState (lit "Title") [] false (lit "An error occurred: Failed to fetch")
            (lit "Copy Markdown") false.
Proof.
  apply (@exception_reported sample_type_error_message sample_coerce_number
           sample_apiKey (FetchRejected (lit "Failed to fetch"))
           (lit "Failed to fetch") sample_state).
  left. reflexivity.
Defined.

Lemma copy_failure_witness :
  string_truthy (markdownOutput sample_state) = true
  /\ state_after (copyToClipboard (Threw (lit "denied"))) sample_state
     = mkState (lit "Title") (lit "# Title") false copy_failed_message
               (lit "Copied!") true.
Proof.
  split; [reflexivity|].
  apply (proj1 (@copy_failure sample_state (lit "denied") eq_refl)).
Defined.

Lemma copy_empty_witness :
  markdownOutput initial_state = []
  /\ run (copyToClipboard (Returned true)) initial_state
     = (mkWorld initial_state [], Normal tt).
Proof.
  split; [reflexivity|].
  apply (@copy_empty initial_state (Returned true)). reflexivity.
Defined.

(** The text of the second testable property, and strings on which one
    application leaves a marker behind. *)
Example cleanedText_samples :
  cleanedText (lit ("```markdown" +++ NL +++ "Hello" +++ NL +++ "```"))
  = lit "Hello"
  /\ cleanedText (lit "```markdown```markdownHi") = lit "```markdownHi"
  /\ cleanedText (lit "```markdownHi") = lit "Hi"
  /\ cleanedText (lit "x``` ```") = lit "x```"
  /\ cleanedText (lit ("```" +++ NL +++ "code" +++ NL +++ "```"))
     = lit ("```" +++ NL +++ "code").
Proof. vm_compute. repeat split. Qed.

(** A closing fence followed by a line break is not at the very end of the
    text, so it stays. *)
Example cleanedText_trailing_newline :
  cleanedText (lit ("```markdown" +++ NL +++ "Hello" +++ NL +++ "```" +++ NL))
  = lit ("Hello" +++ NL +++ "```" +++ NL).
Proof. vm_compute. reflexivity. Qed.

(** A response whose first part has no [text] runs into the TypeError of
    the method call, so it is reported through the [catch]. *)
Example part_without_text :
  state_after
    (convertToMarkdown sample_type_error_message sample_coerce_number
       sample_apiKey (Parsed (response_of_part [])))
    sample_state
  = mkState (lit "Title") [] false
      (lit "An error occurred: Cannot read properties of undefined (reading 'replace')")
      (lit "Copy Markdown") false.
Proof. vm_compute. reflexivity. Qed.

(** The value returned by the copy command is not looked at: when it
    returns false the label still changes and the timer is set. *)
Example copy_returned_false :
  run (copyToClipboard (Returned false)) sample_state
  = (mkWorld (setCopyButtonText (lit "Copied!") sample_state)
             [CreateTextarea; SetTextareaValue (lit "# Title"); AppendChild;
              SelectTextarea; ExecCommandCopy;
              SetTimeout ResetCopyButtonText 2000; RemoveChild],
     Normal tt).
Proof. vm_compute. reflexivity. Qed.

(* ===================================================================== *)
(** ** More on the fence stripping *)
(* ===================================================================== *)

Lemma trim_end_app (x y : jsstring) :
  trim_end (x ++ y) =
  if forallb is_space y then trim_end x else x ++ trim_end y.
Proof.
  unfold trim_end. rewrite rev_app_distr, skip_spaces_app, forallb_rev.
  destruct (forallb is_space y); [reflexivity|].
  now rewrite rev_app_distr, rev_involutive.
Qed.

Lemma trim_end_all (y : jsstring) :
  forallb is_space y = true -> trim_end y = [].
Proof.
  intros H. unfold trim_end. rewrite skip_spaces_all; [reflexivity|].
  now rewrite forallb_rev.
Qed.

Lemma skip_spaces_head (s : jsstring) (c : code_unit) (rest : jsstring) :
  skip_spaces s = c :: rest -> is_space c = false.
Proof.
  induction s as [|a s IH]; simpl; [discriminate|].
  destruct (is_space a) eqn:E; [exact IH|].
  intros H. inversion H; subst. exact E.
Qed.

Lemma trim_end_last (s u : jsstring) (c : code_unit) :
  trim_end s = u ++ [c] -> is_space c = false.
Proof.
  unfold trim_end. intros H. apply (f_equal (@rev _)) in H.
  rewrite rev_involutive, rev_app_distr in H. simpl in H.
  now apply skip_spaces_head in H.
Qed.

Lemma space_not_fence_end (u : jsstring) (c : code_unit) :
  is_space c = true -> ends_with fence_close (u ++ [c]) = false.
Proof.
  intros H. unfold ends_with. rewrite rev_app_distr. simpl.
  now rewrite (space_not_backtick _ H).
Qed.

Lemma space_not_marker (c : code_unit) (rest : jsstring) :
  is_space c = true -> starts_with fence_open (c :: rest) = false.
Proof.
  intros H. change fence_open with (96%N :: lit "``markdown").
  cbn [starts_with]. now rewrite (space_not_backtick _ H).
Qed.

(** X1.  A whitespace code unit after the closing fence (a final line
    break, say) keeps the closing fence in the stored text: only the
    opening marker and the whitespace after it are removed. *)
Theorem trailing_space_keeps_fence (content : jsstring) (c : code_unit) :
  is_space c = true ->
  cleanedText (fence_open ++ content ++ fence_close ++ [c])
  = trim_start content ++ fence_close ++ [c].
Proof.
  intros H. rewrite cleanedText_spec. unfold drop_open.
  rewrite starts_with_app, skipn_app, skipn_all, Nat.sub_diag, skipn_O.
  cbn [app]. unfold trim_start.
  assert (E : skip_spaces (content ++ fence_close ++ [c])
              = skip_spaces content ++ fence_close ++ [c]).
  { rewrite skip_spaces_app.
    destruct (forallb is_space content) eqn:A; [|reflexivity].
    now rewrite (skip_spaces_all _ A). }
  rewrite E. unfold drop_close. rewrite find_close_none; [reflexivity|].
  rewrite !app_assoc. now apply space_not_fence_end.
Qed.

Lemma trailing_space_keeps_fence_witness :
  is_space 10%N = true
  /\ cleanedText (fence_open ++ lit " Hi" ++ fence_close ++ [10%N])
     = lit "Hi" ++ fence_close ++ [10%N].
Proof.
  split; [reflexivity|].
  apply (trailing_space_keeps_fence (lit " Hi") 10%N). reflexivity.
Defined.

(** X2.  A whitespace code unit before the opening marker keeps the marker
    in the stored text: only the closing fence and the whitespace before
    it are removed. *)
Theorem leading_space_keeps_marker (content : jsstring) (c : code_unit) :
  is_space c = true ->
  cleanedText (c :: fence_open ++ content ++ fence_close)
  = c :: fence_open ++ trim_end content.
Proof.
  intros H. rewrite cleanedText_spec. unfold drop_open.
  rewrite (space_not_marker _ _ H).
  change (c :: fence_open ++ content ++ fence_close)
    with ((c :: fence_open) ++ content ++ fence_close).
  rewrite app_assoc, drop_close_app, trim_end_app.
  destruct (forallb is_space content) eqn:A.
  - rewrite (trim_end_all _ A), app_nil_r.
    change (c :: fence_open) with ([c] ++ fence_open).
    rewrite trim_end_app. reflexivity.
  - reflexivity.
Qed.

Lemma leading_space_keeps_marker_witness :
  is_space 32%N = true
  /\ cleanedText (32%N :: fence_open ++ lit "Hi " ++ fence_close)
     = 32%N :: fence_open ++ lit "Hi".
Proof.
  split; [reflexivity|].
  apply (leading_space_keeps_marker (lit "Hi ") 32%N). reflexivity.
Defined.

Lemma cleanedText_length (t : jsstring) :
  length (cleanedText t) <= length t.
Proof.
  destruct (cleanedText_split t) as (pre & suf & E & _).
  rewrite E at 2. rewrite !length_app. lia.
Qed.

Lemma cleanedText_shrinks (t : jsstring) :
  cleanedText t <> t -> length (cleanedText t) < length t.
Proof.
  intros H. destruct (cleanedText_split t) as (pre & suf & E & _).
  assert (L : length t = length pre + (length (cleanedText t) + length suf))
    by (rewrite E at 1; now rewrite !length_app).
  destruct pre as [|a pre]; [destruct suf as [|b suf]|]; simpl in L.
  - rewrite app_nil_r in E. simpl in E. congruence.
  - lia.
  - lia.
Qed.

Lemma iter_fixed (n : nat) (t : jsstring) :
  cleanedText t = t -> Nat.iter n cleanedText t = t.
Proof.
  intros H. induction n as [|n IH]; simpl; [reflexivity|].
  now rewrite IH.
Qed.

Lemma iter_reaches_fixed (n : nat) (s : jsstring) :
  length s <= n ->
  cleanedText (Nat.iter n cleanedText s) = Nat.iter n cleanedText s.
Proof.
  revert s; induction n as [|n IH]; intros s L.
  - destruct s; [reflexivity|simpl in L; lia].
  - destruct (list_eq_dec N.eq_dec (cleanedText s) s) as [E|E].
    + rewrite (iter_fixed _ E). exact E.
    + apply cleanedText_shrinks in E.
      change (Nat.iter (S n) cleanedText s)
        with (cleanedText (Nat.iter n cleanedText s)).
      rewrite <- Nat.iter_swap. apply IH. lia.
Qed.

(** X3.  Applied again and again the transform comes to rest: after as
    many applications as the text has code units the result is a string
    that the transform leaves alone, one that neither begins with
    [```markdown] nor ends with [```]. *)
Theorem stripping_comes_to_rest (s : jsstring) :
  let t := Nat.iter (length s) cleanedText s in
  cleanedText t = t
  /\ starts_with fence_open t = false
  /\ ends_with fence_close t = false
  /\ length t <= length s.
Proof.
  intros t.
  assert (F : cleanedText t = t) by (apply iter_reaches_fixed; lia).
  split; [exact F|]. apply cleanedText_fixed in F as [A B].
  repeat split; try assumption.
  unfold t. generalize (length s) at 1. intros n.
  induction n as [|n IH]; simpl; [lia|].
  etransitivity; [apply cleanedText_length|exact IH].
Qed.

Lemma starts_with_app_l (p x y : jsstring) :
  length p <= length x -> starts_with p (x ++ y) = starts_with p x.
Proof.
  revert x; induction p as [|a p IH]; intros [|b x] L; simpl in *;
    try reflexivity; try lia.
  rewrite IH by lia. reflexivity.
Qed.

Lemma ends_with_app_r (p a r : jsstring) :
  length p <= length r -> ends_with p (a ++ r) = ends_with p r.
Proof.
  intros L. unfold ends_with. rewrite rev_app_distr.
  apply starts_with_app_l. now rewrite !length_rev.
Qed.

(** A text that begins with the opening marker and ends with the closing
    fence has the fence after the marker: the two do not overlap. *)
Lemma marker_then_fence (r : jsstring) :
  ends_with fence_close (fence_open ++ r) = true ->
  exists a, r = a ++ fence_close.
Proof.
  intros H.
  destruct (le_lt_dec (length fence_close) (length r)) as [L|L].
  - rewrite ends_with_app_r in H by exact L. now apply ends_with_split.
  - exfalso. unfold ends_with in H. rewrite rev_app_distr in H.
    change (rev fence_open) with (110%N :: rev (lit "```markdow")) in H.
    change (rev fence_close) with [96%N; 96%N; 96%N] in H.
    change (length fence_close) with 3 in L.
    destruct r as [|x [|y [|z r]]]; simpl in L; try lia;
      cbn [rev app starts_with] in H.
    + discriminate H.
    + destruct (code_unit_eqb x 96%N); discriminate H.
    + destruct (code_unit_eqb y 96%N); [|discriminate H].
      destruct (code_unit_eqb x 96%N); discriminate H.
Qed.

Lemma firstn_head (A : Type) (k : nat) (u : list A) (c : A) (rest : list A) :
  firstn k u = c :: rest -> exists rest', u = c :: rest'.
Proof.
  destruct k, u; simpl; try discriminate.
  intros H. inversion H; subst. now eexists.
Qed.

(** X4.  When the text begins with [```markdown] the stored text does not
    begin with whitespace, and when the text ends with [```] the stored
    text does not end with whitespace. *)
Theorem stored_text_is_trimmed (s : jsstring) :
  (starts_with fence_open s = true ->
   forall c rest, cleanedText s = c :: rest -> is_space c = false)
  /\ (ends_with fence_close s = true ->
      forall u c, cleanedText s = u ++ [c] -> is_space c = false).
Proof.
  rewrite cleanedText_spec. split.
  - intros Ho c rest E. unfold drop_open in E. rewrite Ho in E.
    unfold drop_close in E.
    destruct (find_close (skip_spaces (skipn (length fence_open) s))) as [k|].
    + apply firstn_head in E as [rest' E]. now apply skip_spaces_head in E.
    + now apply skip_spaces_head in E.
  - intros Hc u c E. unfold drop_open in E.
    destruct (starts_with fence_open s) eqn:Ho.
    + rewrite (starts_with_split _ _ Ho) in Hc.
      apply marker_then_fence in Hc as [a Ha].
      rewrite Ha, skip_spaces_app_fence, drop_close_app in E.
      now apply trim_end_last in E.
    + apply ends_with_split in Hc as [a ->].
      rewrite drop_close_app in E. now apply trim_end_last in E.
Qed.

Lemma stored_text_is_trimmed_witness :
  starts_with fence_open (lit "```markdown Hi ```") = true
  /\ ends_with fence_close (lit "```markdown Hi ```") = true
  /\ cleanedText (lit "```markdown Hi ```") = lit "Hi"
  /\ is_space 72%N = false /\ is_space 105%N = false.
Proof.
  destruct (stored_text_is_trimmed (lit "```markdown Hi ```")) as [A B].
  split; [reflexivity|]. split; [reflexivity|]. split; [reflexivity|].
  split.
  - exact (A eq_refl 72%N (lit "i") eq_refl).
  - exact (B eq_refl (lit "H") 105%N eq_refl).
Defined.

(* ===================================================================== *)
(** ** More on a conversion attempt *)
(* ===================================================================== *)

Section Attempts.

Variable type_error_message : type_error -> jsstring.
Variable coerce_number : value -> completion spec_float.
Variable apiKey : jsstring.

Local Abbreviation path := (GetPath type_error_message).
Local Abbreviation guard := (has_content type_error_message coerce_number).
Local Abbreviation resume := (convert_resume type_error_message coerce_number).
Local Abbreviation convert :=
  (convertToMarkdown type_error_message coerce_number apiKey).

Ltac open_resume :=
  unfold convert_resume, try_finally, try_catch, convert_body, bind, lift,
    throw, set, emit; cbn [ui trace].

(** However the awaits end, the handler changes the state cells in one of
    three ways and adds console output only. *)
Lemma resume_shape o :
  exists (f : state -> state) (logs : list effect),
    (forall w, resume o w = (mkWorld (f (ui w)) (trace w ++ logs), Normal tt))
    /\ forallb is_console logs = true
    /\ ((exists cleaned,
           f = fun st => setIsLoading false (setMarkdownOutput cleaned st))
        \/ f = (fun st => setIsLoading false (setError failed_message st))
        \/ (exists msg,
              f = fun st => setIsLoading false
                              (setError (error_prefix ++ msg) st))).
Proof.
  pose (caught := fun m st => setIsLoading false
                               (setError (error_prefix ++ m) st)).
  pose (report := fun m => ConsoleError (lit "Error during Markdown conversion:")
                                        (LoggedError m)).
  destruct o as [m|m|result].
  - exists (caught m), [report m]. split; [intros w; reflexivity|].
    split; [reflexivity|]. right; right. now exists m.
  - exists (caught m), [report m]. split; [intros w; reflexivity|].
    split; [reflexivity|]. right; right. now exists m.
  - destruct (guard result) as [[|]|m] eqn:G.
    + destruct (path result text_path) as [text|m] eqn:T.
      * destruct (call_replace type_error_message text) as [cleaned|m] eqn:R.
        -- exists (fun st => setIsLoading false (setMarkdownOutput cleaned st)),
             [ConsoleLog (lit "Generated Markdown:") text].
           split.
           ++ intros w. open_resume. rewrite G, T, R. reflexivity.
           ++ split; [reflexivity|]. left. now exists cleaned.
        -- exists (caught m),
             [ConsoleLog (lit "Generated Markdown:") text; report m].
           split.
           ++ intros w. open_resume. rewrite G, T, R.
              unfold caught, report. cbn. now rewrite <- app_assoc.
           ++ split; [reflexivity|]. right; right. now exists m.
      * exists (caught m), [report m]. split.
        -- intros w. open_resume. rewrite G, T. reflexivity.
        -- split; [reflexivity|]. right; right. now exists m.
    + exists (fun st => setIsLoading false (setError failed_message st)),
        [ConsoleError (lit "Unexpected API response structure:")
                      (LoggedValue result)].
      split.
      * intros w. open_resume. rewrite G. reflexivity.
      * split; [reflexivity|]. right; left. reflexivity.
    + exists (caught m), [report m]. split.
      * intros w. open_resume. rewrite G. reflexivity.
      * split; [reflexivity|]. right; right. now exists m.
Qed.

Lemma attempt_cases o st :
  (exists cleaned,
     state_after (convert o) st
     = mkState (inputText st) cleaned false [] (lit "Copy Markdown") false)
  \/ state_after (convert o) st
     = mkState (inputText st) [] false failed_message (lit "Copy Markdown") false
  \/ (exists msg,
        state_after (convert o) st
        = mkState (inputText st) [] false (error_prefix ++ msg)
                  (lit "Copy Markdown") false).
Proof.
  unfold state_after. rewrite convert_world.
  destruct (resume_shape o) as (f & logs & E & _ & [[c ->]|[->|[m ->]]]);
    rewrite E; cbn [fst ui].
  - left. now exists c.
  - right; left. reflexivity.
  - right; right. now exists m.
Qed.

(** X5.  A whole attempt ends in one of three states and no other: the
    cleaned text stored with no error, or the fixed message with no
    output, or the prefixed exception message with no output; in each
    [inputText] is as before, the copy label is the default one, the
    preview is off and loading has ended.  Error and output are never both
    non-empty. *)
Theorem attempt_outcomes o st :
  let st' := state_after (convert o) st in
  ((exists cleaned,
      st' = mkState (inputText st) cleaned false [] (lit "Copy Markdown") false)
   \/ st' = mkState (inputText st) [] false failed_message
                    (lit "Copy Markdown") false
   \/ (exists msg,
         st' = mkState (inputText st) [] false (error_prefix ++ msg)
                       (lit "Copy Markdown") false))
  /\ string_truthy (error st') && string_truthy (markdownOutput st') = false.
Proof.
  intros st'. split; [apply attempt_cases|]. unfold st'.
  destruct (attempt_cases o st) as [[c ->]|[->|[m ->]]]; reflexivity.
Qed.

(** X6.  An attempt sends exactly one request, for the input text of the
    state it starts from, and it is the first thing the attempt does to
    the outside; all that follows is console output: no second request, no
    timer, nothing on the document. *)
Theorem one_request_per_attempt o st :
  exists logs,
    effects_of (convert o) st
    = Fetch (apiUrl apiKey) (payload (inputText st)) :: logs
    /\ forallb is_console logs = true
    /\ forallb (fun e => negb (is_request e)) logs = true.
Proof.
  unfold effects_of. rewrite convert_world.
  destruct (resume_shape o) as (f & logs & E & C & _).
  exists logs. rewrite E. cbn [fst trace app]. repeat split; [exact C|].
  clear E. induction logs as [|e logs IH]; [reflexivity|].
  cbn [forallb] in *. apply andb_true_iff in C as [C1 C2].
  rewrite (IH C2). now destruct e.
Qed.

Lemma resume_guard_false result w :
  guard result = Normal false ->
  resume (Parsed result) w
  = (mkWorld (setIsLoading false (setError failed_message (ui w)))
             (trace w ++ [ConsoleError (lit "Unexpected API response structure:")
                                       (LoggedValue result)]),
     Normal tt).
Proof. intros G. open_resume. rewrite G. reflexivity. Qed.

Lemma resume_guard_throw result w msg :
  guard result = Throw msg ->
  resume (Parsed result) w
  = (mkWorld (setIsLoading false (setError (error_prefix ++ msg) (ui w)))
             (trace w ++ [ConsoleError (lit "Error during Markdown conversion:")
                                       (LoggedError msg)]),
     Normal tt).
Proof. intros G. open_resume. rewrite G. reflexivity. Qed.

(** X7.  A body that parses to a boolean, a number, a string or an array
    has no [candidates]: the attempt ends with the fixed message, like a
    response of the wrong shape. *)
Theorem body_not_an_object result st :
  not_an_object result = true ->
  state_after (convert (Parsed result)) st
  = mkState (inputText st) [] false failed_message (lit "Copy Markdown") false.
Proof.
  intros H. unfold state_after. rewrite convert_world.
  rewrite resume_guard_false; [reflexivity|].
  destruct result; try discriminate H; reflexivity.
Qed.

(** X8.  A body that parses to [null], and a response whose first
    candidate is [null], do not reach the fixed message: reading a
    property of [null] throws, and the attempt ends in the [catch] with
    the engine's TypeError text behind the prefix. *)
Theorem null_is_an_exception props cands st :
  own_property (lit "candidates") props = Some (VArr (VNull :: cands)) ->
  state_after (convert (Parsed VNull)) st
  = mkState (inputText st) [] false
      (error_prefix
       ++ type_error_message (ReadOfNullish VNull (lit "candidates")))
      (lit "Copy Markdown") false
  /\ state_after (convert (Parsed (VObj props))) st
     = mkState (inputText st) [] false
         (error_prefix
          ++ type_error_message (ReadOfNullish VNull (lit "content")))
         (lit "Copy Markdown") false.
Proof.
  intros H. unfold state_after. rewrite !convert_world. split.
  - reflexivity.
  - rewrite resume_guard_throw
      with (msg := type_error_message (ReadOfNullish VNull (lit "content")));
      [reflexivity|].
    unfold has_content, content_path, candidates_path, js_and. cbn [app].
    cbn [GetPath GetV cbind of_option]. rewrite H.
    cbn [GetPath GetV cbind of_option truthy]. reflexivity.
Qed.

Ltac follow :=
  unfold has_content, text_path, parts_path, content_path, candidates_path;
  cbn [app];
  repeat (rewrite ?path_cons, ?path_nil, ?get_obj, ?get_arr_length, ?get_arr_0,
            ?greater_than_zero_length;
          cbn [of_option cbind nth_error js_and truthy length Nat.ltb Nat.leb];
          try match goal with
              | H : own_property _ _ = _ |- _ => rewrite H
              end).

Lemma guard_with_part result part :
  response_with_part result part ->
  guard result = Normal true
  /\ path result text_path
     = Normal (of_option (own_property (lit "text") part)).
Proof.
  intros (props & cand & cands & cont & parts' & -> & H1 & H2 & H3).
  split; follow; reflexivity.
Qed.

(** X9.  When the first part of an otherwise well-formed response has no
    string under [text] (the property is absent, or holds a number, an
    object, ...), nothing is stored: the call of [replace] throws, and the
    attempt ends in the [catch] with the TypeError text behind the prefix,
    after the value has been logged. *)
Theorem text_not_a_string result part st :
  response_with_part result part ->
  (forall t, of_option (own_property (lit "text") part) <> VStr t) ->
  run (convert (Parsed result)) st
  = (mkWorld
       (mkState (inputText st) [] false
          (error_prefix
           ++ type_error_message
                (replace_type_error
                   (of_option (own_property (lit "text") part))))
          (lit "Copy Markdown") false)
       [Fetch (apiUrl apiKey) (payload (inputText st));
        ConsoleLog (lit "Generated Markdown:")
                   (of_option (own_property (lit "text") part));
        ConsoleError (lit "Error during Markdown conversion:")
          (LoggedError
             (type_error_message
                (replace_type_error
                   (of_option (own_property (lit "text") part)))))],
     Normal tt).
Proof.
  intros H N. destruct (guard_with_part H) as [G T].
  set (text := of_option (own_property (lit "text") part)) in *.
  assert (R : call_replace type_error_message text
              = Throw (type_error_message (replace_type_error text))).
  { destruct text; try reflexivity. now destruct (N s). }
  rewrite convert_world. open_resume. rewrite G, T, R. reflexivity.
Qed.

(** X10.  Only the text of the first part of the first candidate counts:
    two well-formed responses with the same such text, however else they
    differ (further candidates, further parts, other properties), make the
    attempt end with the same state and the same interactions. *)
Theorem other_candidates_ignored result1 result2 text st :
  well_formed_response result1 text ->
  well_formed_response result2 text ->
  run (convert (Parsed result1)) st = run (convert (Parsed result2)) st.
Proof.
  intros H1 H2. rewrite !convert_world.
  now rewrite (resume_well_formed _ _ _ H1), (resume_well_formed _ _ _ H2).
Qed.

End Attempts.

Lemma body_not_an_object_witness :
  not_an_object (VArr [VStr (lit "x")]) = true
  /\ state_after
       (convertToMarkdown sample_type_error_message sample_coerce_number
          sample_apiKey (Parsed (VArr [VStr (lit "x")])))
       sample_state
     = mkState (lit "Title") [] false failed_message (lit "Copy Markdown") false.
Proof.
  split; [reflexivity|].
  apply (@body_not_an_object sample_type_error_message sample_coerce_number
           sample_apiKey (VArr [VStr (lit "x")]) sample_state).
  reflexivity.
Defined.

Lemma null_is_an_exception_witness :
  own_property (lit "candidates") [(lit "candidates", VArr [VNull])]
  = Some (VArr [VNull])
  /\ error
       (state_after
          (convertToMarkdown sample_type_error_message sample_coerce_number
             sample_apiKey (Parsed (VObj [(lit "candidates", VArr [VNull])])))
          sample_state)
     = lit "An error occurred: Cannot read properties of null (reading 'content')".
Proof.
  split; [reflexivity|].
  destruct (@null_is_an_exception sample_type_error_message
              sample_coerce_number sample_apiKey
              [(lit "candidates", VArr [VNull])] [] sample_state eq_refl)
    as [_ E].
  rewrite E. reflexivity.
Defined.

Lemma text_not_a_string_witness :
  response_with_part (response_of_part [(lit "text", VNum (S754_zero false))])
                     [(lit "text", VNum (S754_zero false))]
  /\ error
       (state_after
          (convertToMarkdown sample_type_error_message sample_coerce_number
             sample_apiKey
             (Parsed (response_of_part [(lit "text", VNum (S754_zero false))])))
          sample_state)
     = lit "An error occurred: text.replace is not a function".
Proof.
  assert (H : response_with_part
                (response_of_part [(lit "text", VNum (S754_zero false))])
                [(lit "text", VNum (S754_zero false))]).
  { unfold response_with_part, response_of_part.
    do 5 eexists. repeat split; reflexivity. }
  split; [exact H|].
  unfold state_after.
  rewrite (@text_not_a_string sample_type_error_message sample_coerce_number
             sample_apiKey _ _ sample_state H); [reflexivity|].
  intros t. discriminate.
Defined.

Lemma sample_crowded_well_formed text :
  well_formed_response (sample_crowded_response text) text.
Proof.
  unfold well_formed_response, sample_crowded_response.
  do 6 eexists. repeat split; reflexivity.
Defined.

Lemma other_candidates_ignored_witness :
  well_formed_response (response_of (lit "# Title")) (lit "# Title")
  /\ well_formed_response (sample_crowded_response (lit "# Title"))
                          (lit "# Title")
  /\ run (convertToMarkdown sample_type_error_message sample_coerce_number
            sample_apiKey (Parsed (response_of (lit "# Title"))))
         sample_state
     = run (convertToMarkdown sample_type_error_message sample_coerce_number
              sample_apiKey (Parsed (sample_crowded_response (lit "# Title"))))
           sample_state.
Proof.
  split; [apply response_of_well_formed|].
  split; [apply sample_crowded_well_formed|].
  apply (@other_candidates_ignored sample_type_error_message
           sample_coerce_number sample_apiKey _ _ (lit "# Title") sample_state).
  - apply response_of_well_formed.
  - apply sample_crowded_well_formed.
Defined.

(* ===================================================================== *)
(** ** More on copying *)
(* ===================================================================== *)

(** X11.  With a non-empty [markdownOutput], when the copy command
    returns (whatever it returns) the label becomes [Copied!], nothing
    else changes, one timer of 2000 ms is set and the textarea is removed
    again; when that timer fires the label is the default one and the
    other cells are still as before the copy. *)
Theorem copy_success st ok :
  string_truthy (markdownOutput st) = true ->
  run (copyToClipboard (Returned ok)) st
  = (mkWorld (setCopyButtonText (lit "Copied!") st)
             [CreateTextarea; SetTextareaValue (markdownOutput st);
              AppendChild; SelectTextarea; ExecCommandCopy;
              SetTimeout ResetCopyButtonText 2000; RemoveChild],
     Normal tt)
  /\ state_after (timer_fires ResetCopyButtonText)
       (state_after (copyToClipboard (Returned ok)) st)
     = setCopyButtonText (lit "Copy Markdown") st.
Proof.
  intros H.
  unfold state_after, run, copyToClipboard, bind, read. cbn [ui].
  rewrite H. split; reflexivity.
Qed.

Lemma copy_success_witness :
  string_truthy (markdownOutput sample_state) = true
  /\ state_after (copyToClipboard (Returned false)) sample_state
     = setCopyButtonText (lit "Copied!") sample_state.
Proof.
  split; [reflexivity|].
  unfold state_after.
  rewrite (proj1 (@copy_success sample_state false eq_refl)). reflexivity.
Defined.

(** X12.  The copy handler never ends with an exception and never writes
    [markdownOutput], [inputText], [isLoading] or [showPreview]; and when
    it touches the document at all, the textarea it appends is removed
    again at the end, also when the copy command throws. *)
Theorem copy_is_contained o st :
  snd (run (copyToClipboard o) st) = Normal tt
  /\ markdownOutput (state_after (copyToClipboard o) st) = markdownOutput st
  /\ inputText (state_after (copyToClipboard o) st) = inputText st
  /\ isLoading (state_after (copyToClipboard o) st) = isLoading st
  /\ showPreview (state_after (copyToClipboard o) st) = showPreview st
  /\ (effects_of (copyToClipboard o) st = []
      \/ exists mid,
           effects_of (copyToClipboard o) st
           = [CreateTextarea; SetTextareaValue (markdownOutput st);
              AppendChild; SelectTextarea; ExecCommandCopy]
             ++ mid ++ [RemoveChild]).
Proof.
  unfold state_after, effects_of, run, copyToClipboard, bind, read. cbn [ui].
  destruct (string_truthy (markdownOutput st)).
  - destruct o as [ok|msg]; repeat split; right.
    + now exists [SetTimeout ResetCopyButtonText 2000].
    + now exists [ConsoleError (lit "Failed to copy text: ") (LoggedError msg)].
  - repeat split. now left.
Qed.

(* ===================================================================== *)
(** ** The page: which events it lets through *)
(* ===================================================================== *)

Lemma js_trim_truthy (s : jsstring) :
  string_truthy (js_trim s) = negb (forallb is_space s).
Proof.
  unfold js_trim, trim_start.
  destruct (forallb is_space s) eqn:A.
  - now rewrite (skip_spaces_all _ A).
  - destruct (skip_spaces s) as [|c rest] eqn:E.
    + now apply skip_spaces_some in A.
    + rewrite trim_end_cons. cbn [forallb].
      now rewrite (skip_spaces_head _ E).
Qed.

Lemma dispatch_all_app tem cn key mp es1 es2 w w' :
  dispatch_all tem cn key mp (es1 ++ es2) w = Some w' ->
  exists w1, dispatch_all tem cn key mp es1 w = Some w1
             /\ dispatch_all tem cn key mp es2 w1 = Some w'.
Proof.
  revert w; induction es1 as [|e es1 IH]; intros w H; cbn [app dispatch_all] in *.
  - now exists w.
  - destruct (dispatch tem cn key mp e w) as [w0|]; [|discriminate H].
    now apply IH.
Qed.

Section Events.

Variable type_error_message : type_error -> jsstring.
Variable coerce_number : value -> completion spec_float.
Variable apiKey : jsstring.
Variable marked_parse : jsstring -> jsstring.

Local Abbreviation page := (render marked_parse).
Local Abbreviation fire :=
  (dispatch type_error_message coerce_number apiKey marked_parse).
Local Abbreviation fire_all :=
  (dispatch_all type_error_message coerce_number apiKey marked_parse).
Local Abbreviation resume := (convert_resume type_error_message coerce_number).
Local Abbreviation convert :=
  (convertToMarkdown type_error_message coerce_number apiKey).

(** X13.  The Convert button lets a click through exactly when no
    conversion is loading and the input text has a code unit that is not
    whitespace; an input of blanks and line breaks only counts as empty. *)
Theorem convert_enabled st :
  enabled (page st) ClickConvert
  = negb (isLoading st) && negb (forallb is_space (inputText st)).
Proof.
  cbn [enabled render convertDisabled].
  rewrite js_trim_truthy, negb_orb, negb_involutive. reflexivity.
Qed.

Lemma in_flight_step e w w' :
  in_flight (ui w) ->
  is_response e = false ->
  fire e w = Some w' ->
  in_flight (ui w') /\ is_click e = false /\ trace w' = trace w.
Proof.
  intros (L & O & E & C & P) R. unfold dispatch.
  destruct e as [v| | | |o|cb|o]; try discriminate R;
    cbn [enabled render convertDisabled clearDisabled outputPanel handler].
  - intros H. inversion H; subst. cbn. repeat split; assumption.
  - rewrite L. discriminate.
  - rewrite L. discriminate.
  - rewrite O. discriminate.
  - rewrite O. discriminate.
  - destruct cb. intros H. inversion H; subst. cbn. repeat split; assumption.
Qed.

Lemma in_flight_run es w w' :
  in_flight (ui w) ->
  forallb (fun e => negb (is_response e)) es = true ->
  fire_all es w = Some w' ->
  in_flight (ui w')
  /\ forallb (fun e => negb (is_click e)) es = true
  /\ trace w' = trace w.
Proof.
  revert w; induction es as [|e es IH]; intros w F R H;
    cbn [dispatch_all forallb] in *.
  - inversion H; subst. split; [exact F|now split].
  - apply andb_true_iff in R as [R1 R2]. apply negb_true_iff in R1.
    destruct (fire e w) as [w1|] eqn:D; [|discriminate H].
    destruct (@in_flight_step e w w1 F R1 D) as (F1 & K & T).
    destruct (IH _ F1 R2 H) as (F' & K' & T').
    split; [exact F'|]. split; [|congruence].
    now rewrite K, K'.
Qed.

(** X14.  While a conversion is in flight, from the click on Convert to
    the end of the awaits, the page lets no click through: Convert and
    Clear All are disabled and the output panel with its two buttons is
    not rendered.  Typing and a timer of an earlier copy are all that can
    happen; they leave output, error, label and preview as the start of
    the attempt set them, and the request stays the only interaction. *)
Theorem in_flight_only_typing es st tr w' :
  forallb (fun e => negb (is_response e)) es = true ->
  fire_all (ClickConvert :: es) (mkWorld st tr) = Some w' ->
  enabled (page st) ClickConvert = true
  /\ in_flight (ui w')
  /\ forallb (fun e => negb (is_click e)) es = true
  /\ trace w' = tr ++ [Fetch (apiUrl apiKey) (payload (inputText st))].
Proof.
  intros R H. cbn [dispatch_all] in H.
  destruct (fire ClickConvert (mkWorld st tr)) as [w1|] eqn:D;
    [|discriminate H].
  unfold dispatch in D. cbn [ui] in D.
  destruct (enabled (page st) ClickConvert); [|discriminate D].
  cbn [handler] in D. rewrite start_world in D. cbn [fst] in D.
  injection D as E.
  assert (F1 : in_flight (ui w1)) by (rewrite <- E; now repeat split).
  destruct (@in_flight_run es w1 w' F1 R H) as (F & K & T).
  split; [reflexivity|]. split; [exact F|]. split; [exact K|].
  rewrite T, <- E. reflexivity.
Qed.

Lemma start_in_flight w :
  in_flight (ui (fst (convert_start apiKey w))).
Proof. destruct w as [st tr]. rewrite start_world. now repeat split. Qed.

Lemma in_flight_input es w w' :
  in_flight (ui w) ->
  forallb (fun e => negb (is_response e)) es = true ->
  fire_all es w = Some w' ->
  inputText (ui w') = typed es (inputText (ui w)).
Proof.
  revert w; induction es as [|e es IH]; intros w F R H;
    cbn [dispatch_all forallb] in *.
  - injection H as <-. reflexivity.
  - apply andb_true_iff in R as [R1 R2]. apply negb_true_iff in R1.
    destruct (fire e w) as [w1|] eqn:D; [|discriminate H].
    destruct (@in_flight_step e w w1 F R1 D) as (F1 & K & _).
    rewrite (IH _ F1 R2 H).
    unfold dispatch in D.
    destruct (enabled (page (ui w)) e); [|discriminate D].
    injection D as <-.
    destruct e as [v| | | |o|cb|o]; try discriminate K; try discriminate R1.
    + reflexivity.
    + destruct cb. reflexivity.
Qed.

(** X15.  Whatever is typed while the request is out, the attempt ends as
    if nothing had happened in between: the state is that of the
    uninterrupted attempt with, as input text, the text of the last
    change event (the text at the click when there was none); the request
    is the one for the input text at the click, and there is no other
    interaction. *)
Theorem interleaved_attempt es o st w' :
  forallb (fun e => negb (is_response e)) es = true ->
  fire_all (ClickConvert :: es ++ [Response o]) (mkWorld st []) = Some w' ->
  ui w' = setInputText (typed es (inputText st))
            (state_after (convert o) st)
  /\ inputText (ui w') = typed es (inputText st)
  /\ trace w' = effects_of (convert o) st.
Proof.
  intros R H. cbn [dispatch_all] in H.
  destruct (fire ClickConvert (mkWorld st [])) as [w1|] eqn:D1;
    [|discriminate H].
  unfold dispatch in D1.
  destruct (enabled (page (ui (mkWorld st []))) ClickConvert);
    [|discriminate D1].
  cbn [handler] in D1. rewrite start_world in D1. cbn [fst] in D1.
  injection D1 as E1.
  apply dispatch_all_app in H as (w2 & H2 & H3).
  assert (F1 : in_flight (ui w1)) by (rewrite <- E1; now repeat split).
  destruct (@in_flight_run es w1 w2 F1 R H2) as (F2 & _ & T2).
  pose proof (@in_flight_input es w1 w2 F1 R H2) as I2.
  assert (I1 : inputText (ui w1) = inputText st) by (now rewrite <- E1).
  rewrite I1 in I2.
  cbn [dispatch_all] in H3. unfold dispatch in H3.
  cbn [enabled handler] in H3. injection H3 as E3.
  assert (W : mkWorld (mkState (inputText st) [] true []
                               (lit "Copy Markdown") false)
                      [Fetch (apiUrl apiKey) (payload (inputText st))] = w1)
    by (rewrite <- E1; reflexivity).
  unfold state_after, effects_of. rewrite convert_world, W.
  subst w'.
  destruct (resume_shape type_error_message coerce_number o)
    as (f & logs & E & _ & Hf).
  rewrite !E. cbn [fst ui trace]. rewrite T2.
  assert (S : f (ui w2)
              = setInputText (typed es (inputText st)) (f (ui w1))).
  { destruct F1 as (L1 & O1 & R1 & C1 & P1).
    destruct F2 as (L2 & O2 & R2 & C2 & P2).
    destruct (ui w1) as [i1 m1 l1 e1 c1 p1], (ui w2) as [i2 m2 l2 e2 c2 p2].
    cbn in *. subst.
    destruct Hf as [[c ->]|[->|[m ->]]]; reflexivity. }
  split; [exact S|]. split; [|reflexivity].
  rewrite S. reflexivity.
Qed.

(** X16.  A response whose text is nothing but the two markers with
    whitespace between them stores the empty string: the attempt ends
    with neither the error panel nor the output panel on the page. *)
Theorem empty_result_shows_nothing result w st :
  forallb is_space w = true ->
  well_formed_response result (fence_open ++ w ++ fence_close) ->
  markdownOutput (state_after (convert (Parsed result)) st) = []
  /\ errorPanel (page (state_after (convert (Parsed result)) st)) = None
  /\ outputPanel (page (state_after (convert (Parsed result)) st)) = None.
Proof.
  intros A H. unfold state_after. rewrite convert_world.
  rewrite (resume_well_formed _ _ _ H).
  rewrite cleanedText_fenced. unfold trim_start.
  rewrite (skip_spaces_all _ A). repeat split.
Qed.

(** X17.  After a success with a non-empty cleaned text the page shows
    that text raw, with the label [Show Preview], the default copy label
    and no error panel; a click on the toggle then shows what
    [marked.parse] makes of the same text, with the label
    [Show Markdown Syntax]. *)
Theorem success_view result text st :
  well_formed_response result text ->
  string_truthy (cleanedText text) = true ->
  let st' := state_after (convert (Parsed result)) st in
  errorPanel (page st') = None
  /\ outputPanel (page st')
     = Some (mkOutputPanel (lit "Show Preview") (Raw (cleanedText text))
                           (lit "Copy Markdown"))
  /\ outputPanel (page (state_after togglePreview st'))
     = Some (mkOutputPanel (lit "Show Markdown Syntax")
                           (Preview (marked_parse (cleanedText text)))
                           (lit "Copy Markdown")).
Proof.
  intros H T st'. unfold st', state_after. rewrite convert_world.
  rewrite (resume_well_formed _ _ _ H).
  cbn [fst ui run togglePreview bind read set render errorPanel outputPanel
       setIsLoading setMarkdownOutput setShowPreview renderMarkdown
       markdownOutput error showPreview copyButtonText string_truthy negb].
  rewrite T. repeat split.
  unfold renderMarkdown. cbn [markdownOutput setShowPreview setIsLoading
                              setMarkdownOutput].
  now rewrite T.
Qed.

(** X18.  After an attempt, however it ended, the page never shows the
    error panel and the output panel together, Clear All is enabled
    again, and the Convert button carries its resting label. *)
Theorem after_attempt_view o st :
  let v := page (state_after (convert o) st) in
  (errorPanel v = None \/ outputPanel v = None)
  /\ clearDisabled v = false
  /\ convertLabel v = lit "Convert to Markdown".
Proof.
  intros v. unfold v.
  destruct (attempt_cases type_error_message coerce_number apiKey o st)
    as [[c ->]|[->|[m ->]]].
  - repeat split. now left.
  - repeat split. now right.
  - repeat split. now right.
Qed.

End Events.

Lemma in_flight_only_typing_witness :
  dispatch_all sample_type_error_message sample_coerce_number sample_apiKey
    sample_marked_parse
    [ClickConvert; Change (lit "Titles"); TimerFires ResetCopyButtonText]
    (mkWorld sample_state [])
  = Some (mkWorld (mkState (lit "Titles") [] true [] (lit "Copy Markdown")
                           false)
                  [Fetch (apiUrl sample_apiKey) (payload (lit "Title"))])
  /\ in_flight (mkState (lit "Titles") [] true [] (lit "Copy Markdown") false).
Proof.
  assert (D : dispatch_all sample_type_error_message sample_coerce_number
                sample_apiKey sample_marked_parse
                [ClickConvert; Change (lit "Titles");
                 TimerFires ResetCopyButtonText]
                (mkWorld sample_state [])
              = Some (mkWorld (mkState (lit "Titles") [] true []
                                       (lit "Copy Markdown") false)
                        [Fetch (apiUrl sample_apiKey) (payload (lit "Title"))]))
    by (vm_compute; reflexivity).
  split; [exact D|].
  exact (proj1 (proj2 (@in_flight_only_typing sample_type_error_message
                         sample_coerce_number sample_apiKey sample_marked_parse
                         [Change (lit "Titles");
                          TimerFires ResetCopyButtonText]
                         sample_state [] _ eq_refl D))).
Defined.

Lemma interleaved_attempt_witness :
  dispatch_all sample_type_error_message sample_coerce_number sample_apiKey
    sample_marked_parse
    (ClickConvert
     :: [Change (lit "Titl"); TimerFires ResetCopyButtonText;
         Change (lit "Titles")]
     ++ [Response (Parsed (response_of (lit "```markdown # Title ```")))])
    (mkWorld sample_state [])
  = Some (mkWorld
            (mkState (lit "Titles") (lit "# Title") false []
                     (lit "Copy Markdown") false)
            [Fetch (apiUrl sample_apiKey) (payload (lit "Title"));
             ConsoleLog (lit "Generated Markdown:")
                        (VStr (lit "```markdown # Title ```"))])
  /\ typed [Change (lit "Titl"); TimerFires ResetCopyButtonText;
            Change (lit "Titles")] (lit "Title") = lit "Titles"
  /\ mkState (lit "Titles") (lit "# Title") false [] (lit "Copy Markdown") false
     = setInputText (lit "Titles")
         (state_after
            (convertToMarkdown sample_type_error_message sample_coerce_number
               sample_apiKey
               (Parsed (response_of (lit "```markdown # Title ```"))))
            sample_state).
Proof.
  assert (D : dispatch_all sample_type_error_message sample_coerce_number
                sample_apiKey sample_marked_parse
                (ClickConvert
                 :: [Change (lit "Titl"); TimerFires ResetCopyButtonText;
                     Change (lit "Titles")]
                 ++ [Response (Parsed (response_of
                                         (lit "```markdown # Title ```")))])
                (mkWorld sample_state [])
              = Some (mkWorld
                        (mkState (lit "Titles") (lit "# Title") false []
                                 (lit "Copy Markdown") false)
                        [Fetch (apiUrl sample_apiKey) (payload (lit "Title"));
                         ConsoleLog (lit "Generated Markdown:")
                           (VStr (lit "```markdown # Title ```"))]))
    by (vm_compute; reflexivity).
  split; [exact D|]. split; [reflexivity|].
  exact (proj1 (@interleaved_attempt sample_type_error_message
                  sample_coerce_number sample_apiKey sample_marked_parse
                  [Change (lit "Titl"); TimerFires ResetCopyButtonText;
                   Change (lit "Titles")]
                  _ sample_state _ eq_refl D)).
Defined.

Lemma empty_result_shows_nothing_witness :
  forallb is_space [32%N; 10%N] = true
  /\ outputPanel
       (render sample_marked_parse
          (state_after
             (convertToMarkdown sample_type_error_message sample_coerce_number
                sample_apiKey
                (Parsed (response_of
                           (fence_open ++ [32%N; 10%N] ++ fence_close))))
             sample_state))
     = None.
Proof.
  split; [reflexivity|].
  apply (@empty_result_shows_nothing sample_type_error_message
           sample_coerce_number sample_apiKey sample_marked_parse
           _ [32%N; 10%N] sample_state eq_refl
           (response_of_well_formed _)).
Defined.

Lemma success_view_witness :
  well_formed_response (response_of (lit "```markdown # Title ```"))
                       (lit "```markdown # Title ```")
  /\ string_truthy (cleanedText (lit "```markdown # Title ```")) = true
  /\ outputPanel
       (render sample_marked_parse
          (state_after togglePreview
             (state_after
                (convertToMarkdown sample_type_error_message
                   sample_coerce_number sample_apiKey
                   (Parsed (response_of (lit "```markdown # Title ```"))))
                sample_state)))
     = Some (mkOutputPanel (lit "Show Markdown Syntax")
                           (Preview (lit "<p># Title</p>"))
                           (lit "Copy Markdown")).
Proof.
  split; [apply response_of_well_formed|]. split; [reflexivity|].
  destruct (@success_view sample_type_error_message sample_coerce_number
              sample_apiKey sample_marked_parse _ _ sample_state
              (response_of_well_formed (lit "```markdown # Title ```"))
              eq_refl)
    as (_ & _ & E).
  rewrite E. reflexivity.
Defined.

(* ===================================================================== *)
(** ** The request, and attempts one after another *)
(* ===================================================================== *)

Lemma prompt_injective (a b : jsstring) : prompt a = prompt b -> a = b.
Proof.
  unfold prompt. intros H.
  apply app_inv_head in H. apply app_inv_head in H.
  exact (app_inv_tail _ _ _ H).
Qed.

(** X19.  The request carries the input text verbatim inside the prompt:
    two input texts give the same request body only when they are the
    same text. *)
Theorem payload_injective (a b : jsstring) :
  payload a = payload b -> a = b.
Proof.
  unfold payload, chatHistory. intros H.
  apply prompt_injective. congruence.
Qed.

Lemma payload_injective_witness :
  payload (lit "Title") = payload (lit "Title")
  /\ lit "Title" = lit "Title".
Proof.
  split; [reflexivity|].
  apply (@payload_injective (lit "Title") (lit "Title")). reflexivity.
Defined.

Section Sequences.

Variable type_error_message : type_error -> jsstring.
Variable coerce_number : value -> completion spec_float.
Variable apiKey : jsstring.

Local Abbreviation convert :=
  (convertToMarkdown type_error_message coerce_number apiKey).

Lemma attempt_keeps_input o st :
  inputText (state_after (convert o) st) = inputText st.
Proof.
  destruct (attempt_cases type_error_message coerce_number apiKey o st)
    as [[c ->]|[->|[m ->]]]; reflexivity.
Qed.

(** X20.  An attempt forgets what the attempt before it left: output,
    error, label and preview of the earlier attempt have no influence, so
    the second of two attempts ends as it would have ended alone. *)
Theorem attempt_forgets_previous o1 o2 st :
  state_after (convert o2) (state_after (convert o1) st)
  = state_after (convert o2) st.
Proof.
  unfold state_after at 1 3. rewrite !convert_world.
  now rewrite attempt_keeps_input.
Qed.

(** X21.  Clear All after an attempt, however the attempt ended, gives
    back exactly the state the component is mounted with. *)
Theorem clear_after_attempt o st :
  state_after clearAll (state_after (convert o) st) = initial_state.
Proof.
  destruct (attempt_cases type_error_message coerce_number apiKey o st)
    as [[c ->]|[->|[m ->]]]; reflexivity.
Qed.

End Sequences.

(* ===================================================================== *)
(** ** Failures that are not reported as failures of their kind *)
(* ===================================================================== *)

Section Missed.

Variable type_error_message : type_error -> jsstring.
Variable coerce_number : value -> completion spec_float.
Variable apiKey : jsstring.

Local Abbreviation convert :=
  (convertToMarkdown type_error_message coerce_number apiKey).

(** C5.  The response [{ candidates: [] }] ends the attempt with the fixed
    message, as a response that lacks the expected shape should.  The
    response [{ candidates: [null] }], which lacks the expected shape as
    well (its first candidate has no content), does not: the guard reads
    [content] of [null], the TypeError lands in the [catch], and [error]
    is the prefix with the engine's TypeError text, which is not the
    fixed message.  [markdownOutput] is empty in both. *)
Theorem structural_error_missed st :
  state_after (convert (Parsed empty_candidates_response)) st
  = mkState (inputText st) [] false failed_message (lit "Copy Markdown") false
  /\ state_after (convert (Parsed null_candidate_response)) st
     = mkState (inputText st) [] false
         (error_prefix
          ++ type_error_message (ReadOfNullish VNull (lit "content")))
         (lit "Copy Markdown") false
  /\ error (state_after (convert (Parsed null_candidate_response)) st)
     <> failed_message.
Proof.
  assert (A : state_after (convert (Parsed null_candidate_response)) st
              = mkState (inputText st) [] false
                  (error_prefix
                   ++ type_error_message (ReadOfNullish VNull (lit "content")))
                  (lit "Copy Markdown") false).
  { unfold state_after. rewrite convert_world. reflexivity. }
  split; [|split; [exact A|]].
  - unfold state_after. rewrite convert_world. reflexivity.
  - rewrite A. cbn [error]. intros H.
    apply (f_equal (@hd_error _)) in H. discriminate H.
Qed.

End Missed.

(** C9.  With a non-empty [markdownOutput], a copy command that fails by
    returning false is taken for a success: the label becomes [Copied!],
    [error] stays as it was and the timer is set.  Only a copy command
    that throws is reported: then [error] is the fixed clipboard message,
    which is not empty, and the label stays. *)
Theorem copy_failure_unreported st :
  string_truthy (markdownOutput st) = true ->
  copyButtonText (state_after (copyToClipboard (Returned false)) st)
  = lit "Copied!"
  /\ error (state_after (copyToClipboard (Returned false)) st) = error st
  /\ effects_of (copyToClipboard (Returned false)) st
     = [CreateTextarea; SetTextareaValue (markdownOutput st); AppendChild;
        SelectTextarea; ExecCommandCopy;
        SetTimeout ResetCopyButtonText 2000; RemoveChild]
  /\ (forall msg,
        state_after (copyToClipboard (Threw msg)) st
        = setError copy_failed_message st)
  /\ string_truthy copy_failed_message = true.
Proof.
  intros H.
  unfold state_after, effects_of, run, copyToClipboard, bind, read.
  cbn [ui]. rewrite H. repeat split.
Qed.

Lemma copy_failure_unreported_witness :
  string_truthy (markdownOutput sample_result_state) = true
  /\ copyButtonText
       (state_after (copyToClipboard (Returned false)) sample_result_state)
     = lit "Copied!"
  /\ error (state_after (copyToClipboard (Returned false)) sample_result_state)
     = [].
Proof.
  split; [reflexivity|].
  destruct (@copy_failure_unreported sample_result_state eq_refl)
    as (A & B & _).
  split; [exact A|exact B].
Defined.
